(** * rapport-http: the request builder of [lib/websocket/http.js]

    A shallow embedding of the HTTP-like request builder and of the
    response translator, together with the two verb adapters
    ([get.js] and the PUT adapter).

    JavaScript values are modelled over an explicit heap, so that
    aliasing ("the same reference") and in-place mutation are visible.
    The universe of values is the JSON-like one: [undefined], [null],
    booleans, numbers (the IEEE 754 doubles, as primitive floats), strings
    (as their UTF-8 bytes) and references to plain mappings or arrays.  An
    object is represented by its own properties; its prototype is the
    default one, and a write that would change it leaves the model. *)

From Stdlib Require Import ZArith String Ascii List Lia DecimalString Floats.
From stdpp Require Import list.
Import ListNotations.

Open Scope string_scope.
Open Scope Z_scope.

(** ** Values and objects *)

Abbreviation loc := nat.

Inductive value :=
| VUndefined
| VNull
| VBool (b : bool)
| VNum (x : float)
| VStr (s : string)
| VRef (l : loc).

Definition props := list (string * value).

(** A heap object is a plain mapping, whose properties are kept in
    enumeration order, or an array with its indexed elements (a hole reads
    as [undefined]) and its named properties. *)
Inductive object :=
| OMap (ps : props)
| OArr (elems : list value) (ps : props).

Abbreviation heap := (list object).

(** Thrown values.  [TypeError] is an instance built by the module with
    [new TypeError(message)]; [EngineTypeError] is the one the engine raises
    in strict mode for a property write on a primitive, [null] or
    [undefined]; [Thrown] is any value thrown by a collaborator. *)
Inductive exn :=
| TypeError (message : string)
| EngineTypeError
| Thrown (v : value).

(** [if (v)] *)
Definition truthy (v : value) : bool :=
  match v with
  | VUndefined | VNull => false
  | VBool b => b
  | VNum x => negb ((x =? 0) || negb (x =? x))%float
  | VStr s => negb (s =? "")%string
  | VRef _ => true
  end.

(** ** Strings *)

Definition join (sep : string) (l : list string) : string :=
  match l with
  | [] => ""
  | x :: r => fold_left (fun acc y => acc ++ sep ++ y) r x
  end.

(** [s.indexOf(sub)], [-1] when absent. *)
Definition indexOf (s sub : string) : Z :=
  match index 0 sub s with
  | Some n => Z.of_nat n
  | None => -1
  end.

Definition hex_digit (n : N) : ascii :=
  ascii_of_N (if (n <? 10)%N then 48 + n else 55 + n)%N.

(** The characters [encodeURIComponent] leaves alone:
    [A-Z a-z 0-9 - _ . ! ~ * ' ( )]. *)
Definition unreserved (c : ascii) : bool :=
  let n := N_of_ascii c in
  ((65 <=? n) && (n <=? 90) || (97 <=? n) && (n <=? 122) ||
   (48 <=? n) && (n <=? 57) ||
   (n =? 45) || (n =? 95) || (n =? 46) || (n =? 33) || (n =? 126) ||
   (n =? 42) || (n =? 39) || (n =? 40) || (n =? 41))%N.

(** [encodeURIComponent] on the UTF-8 bytes of a string. *)
Fixpoint encodeURIComponent (s : string) : string :=
  match s with
  | EmptyString => EmptyString
  | String c r =>
      if unreserved c then String c (encodeURIComponent r)
      else
        let n := N_of_ascii c in
        String "%" (String (hex_digit (n / 16)) (String (hex_digit (n mod 16))
          (encodeURIComponent r)))
  end.

(** The decimal digits of an integer, with its sign. *)
Definition string_of_Z (n : Z) : string :=
  NilZero.string_of_int (Z.to_int n).

(** The integer a number is, when it is one of magnitude at most [2^53]
    (every such integer is a double). *)
Definition safe_integer (x : float) : option Z :=
  match Prim2SF x with
  | S754_zero _ => Some 0
  | S754_finite s m e =>
      let magnitude :=
        if 0 <=? e then Some (Z.pos m * 2 ^ e)
        else if Z.pos m mod 2 ^ (- e) =? 0 then Some (Z.pos m / 2 ^ (- e))
        else None in
      match magnitude with
      | Some n =>
          if n <=? 2 ^ 53 then Some (if s then - n else n) else None
      | None => None
      end
  | _ => None
  end.

(** Number to string: [NaN], the infinities, and the integers up to
    [2^53] in magnitude, which print as their decimal digits ([-0] as
    [0]).  The shortest round-trip digits of the other numbers (fractions,
    larger magnitudes, exponent forms) are not modelled. *)
Definition number_to_string (x : float) : option string :=
  match Prim2SF x with
  | S754_nan => Some "NaN"
  | S754_infinity false => Some "Infinity"
  | S754_infinity true => Some "-Infinity"
  | _ => option_map string_of_Z (safe_integer x)
  end.

(** ** Property keys

    Own keys are enumerated with the array indices first, in ascending
    order, then the other keys in creation order. *)

Definition digit_val (c : ascii) : option N :=
  let n := N_of_ascii c in
  if ((48 <=? n) && (n <=? 57))%N then Some (n - 48)%N else None.

Fixpoint parse_digits (acc : N) (s : string) : option N :=
  match s with
  | EmptyString => Some acc
  | String c r =>
      match digit_val c with
      | Some d => parse_digits (10 * acc + d)%N r
      | None => None
      end
  end.

(** A key is an array index when it is the canonical decimal form of an
    integer below [2^32 - 1]. *)
Definition array_index (k : string) : option N :=
  match k with
  | EmptyString => None
  | String c r =>
      if (Ascii.eqb c "0" && negb (r =? "")%string)%bool then None
      else
        match parse_digits 0 k with
        | Some n => if (n <? 4294967295)%N then Some n else None
        | None => None
        end
  end.

Fixpoint props_get (k : string) (ps : props) : option value :=
  match ps with
  | [] => None
  | (k', v) :: r => if (k =? k')%string then Some v else props_get k r
  end.

Fixpoint props_replace (k : string) (v : value) (ps : props) : props :=
  match ps with
  | [] => []
  | (k', v') :: r =>
      if (k =? k')%string then (k, v) :: r
      else (k', v') :: props_replace k v r
  end.

Fixpoint props_insert_index (i : N) (k : string) (v : value) (ps : props)
  : props :=
  match ps with
  | [] => [(k, v)]
  | (k', v') :: r =>
      match array_index k' with
      | Some j =>
          if (j <? i)%N then (k', v') :: props_insert_index i k v r
          else (k, v) :: ps
      | None => (k, v) :: ps
      end
  end.

(** [o[k] = v] on the properties of a plain mapping. *)
Definition props_set (k : string) (v : value) (ps : props) : props :=
  match props_get k ps with
  | Some _ => props_replace k v ps
  | None =>
      match array_index k with
      | Some i => props_insert_index i k v ps
      | None => (ps ++ [(k, v)])%list
      end
  end.

(** [delete o[k]]: no entry for [k] is left. *)
Fixpoint props_delete (k : string) (ps : props) : props :=
  match ps with
  | [] => []
  | (k', v) :: r =>
      if (k =? k')%string then props_delete k r
      else (k', v) :: props_delete k r
  end.

(** ** The world: heap and trace of interactions with the collaborators *)

(** A caller-supplied callback is an opaque function, named by a number;
    what is observed of it is that it is called, and with which arguments. *)
Definition user_cb := nat.

(** The closure [(res, err) => { cb(translateResponse(res),
    translateResponse(err)); }] that [send] hands to the transport. *)
Inductive sock_cb :=
| Translating (cb : user_cb).

Inductive event :=
| SockSend (envelope : value)
| SockRequest (envelope timeout : value) (cb : option sock_cb)
| Callback (cb : user_cb) (res err : value).

Record world := mkWorld { w_heap : heap; w_trace : list event }.

(** A computation returns, throws, or leaves the modelled fragment of the
    language ([Unsupported]: a write to an array's [length], a write that
    changes a prototype, a dangling reference, the string conversion of a
    cyclic array or of a number whose digits are not modelled). *)
Inductive result (A : Type) :=
| Ok (a : A) (w : world)
| Throw (e : exn) (w : world)
| Unsupported.
Arguments Ok {A} a w.
Arguments Throw {A} e w.
Arguments Unsupported {A}.

Definition M (A : Type) := world -> result A.

Definition ret {A} (a : A) : M A := fun w => Ok a w.

Definition bind {A B} (m : M A) (f : A -> M B) : M B :=
  fun w =>
    match m w with
    | Ok a w' => f a w'
    | Throw e w' => Throw e w'
    | Unsupported => Unsupported
    end.

Definition throw {A} (e : exn) : M A := fun w => Throw e w.
Definition unsupported {A} : M A := fun _ => Unsupported.

Declare Scope js_scope.
Delimit Scope js_scope with js.
Notation "x <- m ;; k" := (bind m (fun x => k))
  (at level 100, m at next level, right associativity) : js_scope.
Notation "m ;; k" := (bind m (fun _ => k))
  (at level 100, right associativity) : js_scope.
Open Scope js_scope.

Definition get_heap : M heap := fun w => Ok (w_heap w) w.

Definition put_heap (h : heap) : M unit :=
  fun w => Ok tt (mkWorld h (w_trace w)).

Definition emit (e : event) : M unit :=
  fun w => Ok tt (mkWorld (w_heap w) (w_trace w ++ [e])%list).

(** An object literal or [new]: the object gets a fresh location. *)
Definition alloc (o : object) : M value :=
  fun w =>
    Ok (VRef (length (w_heap w)))
       (mkWorld (w_heap w ++ [o])%list (w_trace w)).

(** ** Property access *)

(** An own property, [undefined] when there is none; the inherited
    [__proto__] accessor is not modelled. *)
Definition own_or_undefined (k : string) (ps : props) : M value :=
  match props_get k ps with
  | Some v => ret v
  | None => if (k =? "__proto__")%string then unsupported else ret VUndefined
  end.

(** [target[k]] for a key that no primitive carries (the module reads
    [_s] and [_b] only, and only on truthy values). *)
Definition get_prop (target : value) (k : string) : M value :=
  match target with
  | VRef l =>
      h <- get_heap ;;
      match h !! l with
      | Some (OMap ps) => own_or_undefined k ps
      | Some (OArr es ps) =>
          match array_index k with
          | Some i => ret (nth (N.to_nat i) es VUndefined)
          | None =>
              if (k =? "length")%string
              then ret (VNum (of_uint63 (Uint63.of_Z (Z.of_nat (length es)))))
              else own_or_undefined k ps
          end
      | None => unsupported
      end
  | VUndefined | VNull => throw EngineTypeError
  | _ => if (k =? "__proto__")%string then unsupported else ret VUndefined
  end.

Definition array_set (i : nat) (v : value) (es : list value) : list value :=
  if (i <? length es)%nat then <[i := v]> es
  else (es ++ replicate (i - length es) VUndefined ++ [v])%list.

(** A write of [__proto__] on an object without an own property of that
    name reaches the setter inherited from [Object.prototype]. *)
Definition reaches_proto_setter (k : string) (ps : props) : bool :=
  (k =? "__proto__")%string &&
  match props_get k ps with Some _ => false | None => true end.

(** The inherited setter changes the prototype when it is given [null] or
    an object, and ignores any other value. *)
Definition sets_prototype (v : value) : bool :=
  match v with VNull | VRef _ => true | _ => false end.

(** [o[k] = v] on the named properties of an object: the properties after
    the write, [None] when the write changes the prototype. *)
Definition props_assign (k : string) (v : value) (ps : props)
  : option props :=
  if reaches_proto_setter k ps then
    if sets_prototype v then None else Some ps
  else Some (props_set k v ps).

(** [target[k] = v] in strict mode.  On a string, a number or a boolean
    the write throws, except for [__proto__], whose inherited setter
    returns without doing anything. *)
Definition set_prop (target : value) (k : string) (v : value) : M unit :=
  match target with
  | VRef l =>
      h <- get_heap ;;
      match h !! l with
      | Some (OMap ps) =>
          match props_assign k v ps with
          | Some ps' => put_heap (<[l := OMap ps']> h)
          | None => unsupported
          end
      | Some (OArr es ps) =>
          match array_index k with
          | Some i => put_heap (<[l := OArr (array_set (N.to_nat i) v es) ps]> h)
          | None =>
              if (k =? "length")%string then unsupported
              else
                match props_assign k v ps with
                | Some ps' => put_heap (<[l := OArr es ps']> h)
                | None => unsupported
                end
          end
      | None => unsupported
      end
  | VUndefined | VNull => throw EngineTypeError
  | _ => if (k =? "__proto__")%string then ret tt else throw EngineTypeError
  end.

(** [delete target[k]] in strict mode. *)
Definition delete_prop (target : value) (k : string) : M unit :=
  match target with
  | VRef l =>
      h <- get_heap ;;
      match h !! l with
      | Some (OMap ps) => put_heap (<[l := OMap (props_delete k ps)]> h)
      | Some (OArr es ps) =>
          match array_index k with
          | Some i => put_heap (<[l := OArr (<[N.to_nat i := VUndefined]> es) ps]> h)
          | None =>
              if (k =? "length")%string then throw EngineTypeError
              else put_heap (<[l := OArr es (props_delete k ps)]> h)
          end
      | None => unsupported
      end
  | VUndefined | VNull => throw EngineTypeError
  | _ => ret tt
  end.

(** ** Conversion to string *)

Fixpoint to_string (fuel : nat) (h : heap) (v : value) : option string :=
  match v with
  | VUndefined => Some "undefined"
  | VNull => Some "null"
  | VBool true => Some "true"
  | VBool false => Some "false"
  | VNum x => number_to_string x
  | VStr s => Some s
  | VRef l =>
      match h !! l with
      | Some (OMap _) => Some "[object Object]"
      | Some (OArr es _) =>
          match fuel with
          | O => None
          | S f =>
              option_map (join ",")
                (mapM (fun e => match e with
                                | VUndefined | VNull => Some ""
                                | _ => to_string f h e
                                end) es)
          end
      | None => None
      end
  end.

(** [String(v)]; arrays nested deeper than the heap has objects form a
    cycle. *)
Definition ToString (v : value) : M string :=
  h <- get_heap ;;
  match to_string (S (length h)) h v with
  | Some s => ret s
  | None => unsupported
  end.

(** The string an array element contributes to [join]: [undefined] and
    [null] give the empty string. *)
Definition elem_string (h : heap) (e : value) : option string :=
  match e with
  | VUndefined | VNull => Some ""
  | _ => to_string (S (length h)) h e
  end.

(** [es.join(sep)] *)
Definition array_join (sep : string) (es : list value) : M string :=
  h <- get_heap ;;
  match mapM (elem_string h) es with
  | Some l => ret (join sep l)
  | None => unsupported
  end.

(** ** The utility predicates ([lib/util.js]) *)

(** Modelled from the spec: [util.isString] of [lib/util.js], whose source
    is missing; the type predicate for strings. *)
Definition isString (v : value) : bool :=
  match v with VStr _ => true | _ => false end.

(** Modelled from the spec: [util.isNumber] of [lib/util.js], whose source
    is missing; the type predicate for numeric values. *)
Definition isNumber (v : value) : bool :=
  match v with VNum _ => true | _ => false end.

(** Modelled from the spec: [util.isArray] of [lib/util.js], whose source
    is missing; the type predicate for arrays. *)
Definition isArray (h : heap) (v : value) : bool :=
  match v with
  | VRef l => match h !! l with Some (OArr _ _) => true | _ => false end
  | _ => false
  end.

(** Modelled from the spec: [util.isObject] of [lib/util.js], whose source
    is missing; true of plain mappings only ("string, number, array, null"
    are the non-objects the spec lists). *)
Definition isObject (h : heap) (v : value) : bool :=
  match v with
  | VRef l => match h !! l with Some (OMap _) => true | _ => false end
  | _ => false
  end.

Fixpoint forEach_props {S : Type} (ps : props)
    (f : string -> value -> S -> M S) (s : S) : M S :=
  match ps with
  | [] => ret s
  | (k, v) :: r => s' <- f k v s ;; forEach_props r f s'
  end.

(** The own properties of a mapping, in enumeration order. *)
Definition own_props (h : heap) (v : value) : props :=
  match v with
  | VRef l => match h !! l with Some (OMap ps) => ps | _ => [] end
  | _ => []
  end.

(** Modelled from the spec: [util.forEach] of [lib/util.js], whose source
    is missing; calls [f key value] for each own property of a mapping, in
    stable key order.  The state [S] stands for the local
    variables the callback closes over.  The module applies it to values
    for which [isObject] holds. *)
Definition forEach {S : Type} (o : value)
    (f : string -> value -> S -> M S) (s : S) : M S :=
  h <- get_heap ;;
  forEach_props (own_props h o) f s.

(** ** The response translator *)

Definition translateResponse (res : value) : M value :=
  if truthy res then
    s <- get_prop res "_s" ;;
    set_prop res "status" s ;;
    delete_prop res "_s" ;;
    b <- get_prop res "_b" ;;
    set_prop res "body" b ;;
    delete_prop res "_b" ;;
    ret res
  else ret res.

(** ** The request builder *)

(** The fields of the [http] object.  [_method] and [_url] hold strings
    once the constructor has checked them. *)
Record builder := mkBuilder {
  _method : string;
  _url : string;
  _body : value;
  _timeout : value;
  _expectResponse : value
}.

(** The string a string value holds. *)
Definition string_of (v : value) : string :=
  match v with VStr s => s | _ => "" end.

(** [module.exports = (wrappedSocket, options, method, url) => ...]; the
    two collaborators are only used by [send]. *)
Definition http (method url : value) : M builder :=
  if negb (isString method) then
    throw (TypeError "HTTP method must be a string")
  else if negb (isString url) then
    throw (TypeError "HTTP URL must be a string")
  else
    b <- alloc (OMap []) ;;
    ret (mkBuilder (string_of method) (string_of url) b (VNum 0) (VBool true)).

Definition set_url (u : string) (b : builder) : builder :=
  mkBuilder (_method b) u (_body b) (_timeout b) (_expectResponse b).
Definition set_body (v : value) (b : builder) : builder :=
  mkBuilder (_method b) (_url b) v (_timeout b) (_expectResponse b).
Definition set_timeout (v : value) (b : builder) : builder :=
  mkBuilder (_method b) (_url b) (_body b) v (_expectResponse b).
Definition set_expectResponse (v : value) (b : builder) : builder :=
  mkBuilder (_method b) (_url b) (_body b) (_timeout b) v.

(** [body]: merge the keys of a mapping into the accumulated body, or
    replace the accumulated body.  Each mutator returns the builder. *)
Definition body (v : value) (b : builder) : M builder :=
  h <- get_heap ;;
  if isObject h v then
    forEach v (fun key val _ => set_prop (_body b) key val) tt ;;
    ret b
  else ret (set_body v b).

Definition elems_of (h : heap) (v : value) : list value :=
  match v with
  | VRef l => match h !! l with Some (OArr es _) => es | _ => [] end
  | _ => []
  end.

(** The local [queryString] of [query], computed from a truthy argument. *)
Definition queryString (query : value) : M string :=
  h <- get_heap ;;
  if isString query then
    ret (string_of query)
  else if isArray h query then
    array_join "&" (elems_of h query)
  else if isObject h query then
    queryArray <-
      forEach query (fun key val queryArray =>
        v <- ToString val ;;
        ret (queryArray ++
             [(encodeURIComponent key ++ "=" ++ encodeURIComponent v)%string])%list)
        [] ;;
    ret (join "&" queryArray)
  else
    throw (TypeError "Query must be a url encoded string, object, or array").

Definition query (q : value) (b : builder) : M builder :=
  if truthy q then
    qs <- queryString q ;;
    if 0 <=? indexOf (_url b) "?" then
      ret (set_url (_url b ++ "&" ++ qs) b)
    else
      ret (set_url (_url b ++ "?" ++ qs) b)
  else ret b.

Definition timeout (ms : value) (b : builder) : M builder :=
  if negb (isNumber ms) then
    throw (TypeError "Timeout must be a numeric value")
  else
    match ms with
    | VNum n => if (0 <? n)%float then ret (set_timeout ms b) else ret b
    | _ => ret b
    end.

Definition expectResponse (responseExpected : value) (b : builder)
  : M builder :=
  ret (set_expectResponse responseExpected b).

(** ** The collaborators of [send] *)

(** The wrapped socket, as [send] sees it: [send(envelope)] returns or
    throws a value; [request(envelope, timeout, callback)] returns some
    value to the caller of the callback flow, and
    [request(envelope, timeout)] returns a promise. *)
Record socket := mkSocket {
  sock_send : heap -> value -> option value;
  sock_request : heap -> value -> value -> sock_cb -> value
}.

(** The promises [send] can return: [options.Promise.reject(reason)], and
    [wrappedSocket.request(envelope, timeout).then(translateResponse,
    (err) => { throw translateResponse(err); })]. *)
Inductive promise :=
| OptionsPromiseReject (reason : value)
| TranslatedRequest (envelope timeout : value).

Inductive returned :=
| RetValue (v : value)
| RetPromise (p : promise).

Definition call_cb (cb : user_cb) (res err : value) : M unit :=
  emit (Callback cb res err).

(** What the closure handed to the transport does when the transport calls
    it with [(res, err)]. *)
Definition run_sock_cb (k : sock_cb) (res err : value) : M unit :=
  match k with
  | Translating cb =>
      r <- translateResponse res ;;
      e <- translateResponse err ;;
      call_cb cb r e
  end.

Definition send (wrappedSocket : socket) (cb : option user_cb) (b : builder)
  : M returned :=
  body <- alloc (OMap [("_m", VStr (_method b)); ("_u", VStr (_url b));
                       ("_b", _body b)]) ;;
  if negb (truthy (_expectResponse b)) then
    emit (SockSend body) ;;
    h <- get_heap ;;
    match sock_send wrappedSocket h body with
    | None => ret (RetValue VUndefined)
    | Some err =>
        match cb with
        | None => ret (RetPromise (OptionsPromiseReject err))
        | Some f => call_cb f VNull err ;; ret (RetValue VUndefined)
        end
    end
  else
    match cb with
    | Some f =>
        emit (SockRequest body (_timeout b) (Some (Translating f))) ;;
        h <- get_heap ;;
        ret (RetValue (sock_request wrappedSocket h body (_timeout b)
                         (Translating f)))
    | None =>
        emit (SockRequest body (_timeout b) None) ;;
        ret (RetPromise (TranslatedRequest body (_timeout b)))
    end.

(** ** Settlement of the returned promise *)

Inductive transport_reply :=
| Resolves (res : value)
| Rejects (err : value).

Inductive settled :=
| Fulfilled (v : value)
| Rejected (reason : exn).

Definition catch {A} (m : M A) (handler : exn -> M A) : M A :=
  fun w =>
    match m w with
    | Throw e w' => handler e w'
    | r => r
    end.

(** [p.then(translateResponse, (err) => { throw translateResponse(err); })]
    once the transport's promise [p] has settled: the derived promise is
    fulfilled with what the handler returns and rejected with what it
    throws. *)
Definition then_translate (reply : transport_reply) : M settled :=
  catch
    match reply with
    | Resolves res => v <- translateResponse res ;; ret (Fulfilled v)
    | Rejects err => v <- translateResponse err ;; throw (Thrown v)
    end
    (fun e => ret (Rejected e)).

Definition settle (p : promise) (reply : transport_reply) : M settled :=
  match p with
  | OptionsPromiseReject reason => ret (Rejected (Thrown reason))
  | TranslatedRequest _ _ => then_translate reply
  end.

(** ** The verb adapters *)

(** Modelled from the spec: the [http] operation of the socket wrapper,
    whose source is missing; it instantiates the request builder with the
    given method and route. *)
Definition sock_http (method route : value) : M builder :=
  http method route.

(** [get.js] *)
Definition get (route : value) : M builder := sock_http (VStr "get") route.

(** The PUT adapter. *)
Definition put (route : value) : M builder := sock_http (VStr "put") route.

Definition empty_world : world := mkWorld [] [].

(** ** Notions used in the statements *)

(** The URL after a query string has been appended to it. *)
Definition appended (url qs : string) : string :=
  let sep := if (0 <=? indexOf url "?")%Z then "&" else "?" in
  url ++ sep ++ qs.

(** The calls made on the transport, among the events of a trace. *)
Definition transport_calls (tr : list event) : list event :=
  List.filter
    (fun e => match e with Callback _ _ _ => false | _ => true end) tr.

(** The envelope [send] builds from a builder. *)
Definition envelope_of (b : builder) : object :=
  OMap [("_m", VStr (_method b)); ("_u", VStr (_url b)); ("_b", _body b)].

(** The named properties of an object, and the object with them replaced. *)
Definition named_props (o : object) : props :=
  match o with OMap ps => ps | OArr _ ps => ps end.

Definition with_props (o : object) (ps : props) : object :=
  match o with OMap _ => OMap ps | OArr es _ => OArr es ps end.

(** A reply the translator is written for: a falsy placeholder, or a
    reference to an object of the heap. *)
Definition translatable (h : heap) (v : value) : Prop :=
  truthy v = false \/ exists l o, v = VRef l /\ h !! l = Some o.

(** A value that is neither a mapping nor an array nor any other object. *)
Definition primitive (v : value) : bool :=
  match v with VRef _ => false | _ => true end.

(** A key that is neither an array index nor [length] nor [__proto__]
    names a plain property, on a mapping as on an array. *)
Definition named_key (k : string) : Prop :=
  array_index k = None /\ (k =? "length")%string = false /\
  (k =? "__proto__")%string = false.

(** The properties of a translated response, from those of the reply. *)
Definition translated_props (ps : props) : props :=
  props_delete "_b"
    (props_set "body"
       (default VUndefined
          (props_get "_b"
             (props_delete "_s"
                (props_set "status" (default VUndefined (props_get "_s" ps))
                   ps))))
       (props_delete "_s"
          (props_set "status" (default VUndefined (props_get "_s" ps)) ps))).

(** The [key=value] string of one property of a query mapping. *)
Definition encoded_pair (h : heap) (kv : string * value) : option string :=
  match to_string (S (length h)) h (snd kv) with
  | Some s => Some (encodeURIComponent (fst kv) ++ "=" ++ encodeURIComponent s)%string
  | None => None
  end.

(** The properties of the accumulated body after the properties [psv] of
    the argument have been assigned to it one by one.  An own [__proto__]
    key of the argument, met on a body that has no own property of that
    name, goes to the inherited setter and adds no property. *)
Definition merged (psb psv : props) : props :=
  fold_left
    (fun acc kv =>
       if reaches_proto_setter (fst kv) acc then acc
       else props_set (fst kv) (snd kv) acc)
    psv psb.

(** An argument with an own [__proto__] key that holds [null] or an
    object: assigned to a body, it may change the body's prototype. *)
Definition changes_prototype (psv : props) : bool :=
  existsb
    (fun kv => (fst kv =? "__proto__")%string && sets_prototype (snd kv)) psv.

(** An argument with an own key other than [__proto__]. *)
Definition has_plain_key (psv : props) : bool :=
  existsb (fun kv => negb (fst kv =? "__proto__")%string) psv.

(** ** Concrete collaborators and worlds *)

Definition quiet_socket : socket :=
  mkSocket (fun _ _ => None) (fun _ _ _ _ => VUndefined).

Definition failing_socket (E : value) : socket :=
  mkSocket (fun _ _ => Some E) (fun _ _ _ _ => VUndefined).

(** A heap holding [{page: 2}]. *)
Definition page_world : world := mkWorld [OMap [("page", VNum 2)]] [].

(** A heap holding [{a: "1 2", b: "x"}]. *)
Definition ab_world : world :=
  mkWorld [OMap [("a", VStr "1 2"); ("b", VStr "x")]] [].

(** A heap holding [{_s: 200, _b: {ok: true}}] at location 0. *)
Definition reply_world : world :=
  mkWorld [OMap [("_s", VNum 200); ("_b", VRef 1%nat)];
           OMap [("ok", VBool true)]] [].

(** A heap holding [{a: 1}] and [{b: 2}]. *)
Definition merge_world : world :=
  mkWorld [OMap [("a", VNum 1)]; OMap [("b", VNum 2)]] [].

(** A heap holding a mapping whose one own property is named
    [__proto__], as [JSON.parse('{"__proto__": 1}')] makes it. *)
Definition proto_world : world := mkWorld [OMap [("__proto__", VNum 1)]] [].

(** A heap holding the array [["x=1", "y=2"]]. *)
Definition array_world : world :=
  mkWorld [OArr [VStr "x=1"; VStr "y=2"] []] [].

(** A builder as the constructor leaves it, its body at location [l]. *)
Definition fresh_builder (m u : string) (l : loc) : builder :=
  mkBuilder m u (VRef l) (VNum 0) (VBool true).

(** A heap holding the empty body of a fresh builder. *)
Definition body_world : world := mkWorld [OMap []] [].

(** A fresh builder on which [expectResponse(false)] has been called. *)
Definition silent_builder : builder :=
  set_expectResponse (VBool false) (fresh_builder "put" "/items" 0).

(** The whole chain of the end-to-end example:
    [get(transport, "/items").query({page: 2}).timeout(500).send()]. *)
Definition get_items_page_2 (wrappedSocket : socket) : M returned :=
  b <- get (VStr "/items") ;;
  b <- query (VRef 0%nat) b ;;
  b <- timeout (VNum 500) b ;;
  send wrappedSocket None b.

(** ** Sequences of mutator calls *)

(** One call of a chainable mutator of the builder. *)
Inductive call :=
| CallBody (v : value)
| CallQuery (v : value)
| CallTimeout (v : value)
| CallExpectResponse (v : value).

Definition run_call (c : call) (b : builder) : M builder :=
  match c with
  | CallBody v => body v b
  | CallQuery v => query v b
  | CallTimeout v => timeout v b
  | CallExpectResponse v => expectResponse v b
  end.

(** [http.m1(a1).m2(a2)...]: the calls are made in order, each on the
    builder the previous one returned. *)
Fixpoint chain (cs : list call) (b : builder) : M builder :=
  match cs with
  | [] => ret b
  | c :: r => b' <- run_call c b ;; chain r b'
  end.

(** A computation that makes no call on the transport and none on a
    callback, whether it returns or throws. *)
Definition silent {A} (m : M A) : Prop :=
  forall w,
    match m w with
    | Ok _ w' | Throw _ w' => w_trace w' = w_trace w
    | Unsupported => True
    end.

(** A computation that leaves heap and trace as they are. *)
Definition read_only {A} (m : M A) : Prop :=
  forall w,
    match m w with
    | Ok _ w' | Throw _ w' => w' = w
    | Unsupported => True
    end.


Ltac run :=
  unfold bind, ret, throw, unsupported, get_heap, put_heap, emit, alloc;
  simpl.

(** ** Properties of the property lists *)

Lemma props_get_replace_eq k v ps :
  props_get k ps <> None -> props_get k (props_replace k v ps) = Some v.
Proof.
  induction ps as [|[k' v'] r IH]; simpl; [congruence|].
  destruct (String.eqb_spec k k') as [->|Hne]; simpl.
  - now rewrite String.eqb_refl.
  - intros H. destruct (String.eqb_spec k k'); [congruence|auto].
Qed.

Lemma props_get_replace_ne k k' v ps :
  k <> k' -> props_get k' (props_replace k v ps) = props_get k' ps.
Proof.
  intros Hne. induction ps as [|[k0 v0] r IH]; simpl; [reflexivity|].
  destruct (String.eqb_spec k k0) as [->|Hk]; simpl.
  - destruct (String.eqb_spec k' k0); [congruence|reflexivity].
  - now rewrite IH.
Qed.

Lemma props_get_insert_index_eq i k v ps :
  props_get k ps = None -> props_get k (props_insert_index i k v ps) = Some v.
Proof.
  induction ps as [|[k' v'] r IH]; simpl.
  - now rewrite String.eqb_refl.
  - destruct (String.eqb_spec k k') as [->|Hne]; [congruence|].
    intros H. destruct (array_index k') as [j|]; simpl.
    + destruct (j <? i)%N; simpl.
      * destruct (String.eqb_spec k k'); [congruence|auto].
      * now rewrite String.eqb_refl.
    + now rewrite String.eqb_refl.
Qed.

Lemma props_get_insert_index_ne i k k' v ps :
  k <> k' ->
  props_get k' (props_insert_index i k v ps) = props_get k' ps.
Proof.
  intros Hne. induction ps as [|[k0 v0] r IH]; simpl.
  - destruct (String.eqb_spec k' k); [congruence|reflexivity].
  - destruct (array_index k0) as [j|]; simpl.
    + destruct (j <? i)%N; simpl.
      * now rewrite IH.
      * destruct (String.eqb_spec k' k); [congruence|reflexivity].
    + destruct (String.eqb_spec k' k); [congruence|reflexivity].
Qed.

Lemma props_get_app k ps qs :
  props_get k (ps ++ qs)%list =
  match props_get k ps with Some v => Some v | None => props_get k qs end.
Proof.
  induction ps as [|[k' v'] r IH]; simpl; [reflexivity|].
  now destruct (k =? k')%string.
Qed.

Lemma props_get_set_eq k v ps : props_get k (props_set k v ps) = Some v.
Proof.
  unfold props_set. destruct (props_get k ps) eqn:E.
  - apply props_get_replace_eq. congruence.
  - destruct (array_index k).
    + now apply props_get_insert_index_eq.
    + rewrite props_get_app, E. simpl. now rewrite String.eqb_refl.
Qed.

Lemma props_get_set_ne k k' v ps :
  k <> k' -> props_get k' (props_set k v ps) = props_get k' ps.
Proof.
  intros Hne. unfold props_set. destruct (props_get k ps).
  - now apply props_get_replace_ne.
  - destruct (array_index k).
    + now apply props_get_insert_index_ne.
    + rewrite props_get_app. simpl.
      destruct (String.eqb_spec k' k); [congruence|].
      now destruct (props_get k' ps).
Qed.

Lemma props_get_delete_eq k ps : props_get k (props_delete k ps) = None.
Proof.
  induction ps as [|[k' v'] r IH]; simpl; [reflexivity|].
  destruct (String.eqb_spec k k') as [->|Hne]; simpl; [assumption|].
  destruct (String.eqb_spec k k'); [congruence|assumption].
Qed.

Lemma props_get_delete_ne k k' ps :
  k <> k' -> props_get k' (props_delete k ps) = props_get k' ps.
Proof.
  intros Hne. induction ps as [|[k0 v0] r IH]; simpl; [reflexivity|].
  destruct (String.eqb_spec k k0) as [->|Hk]; simpl.
  - rewrite IH. destruct (String.eqb_spec k' k0); [congruence|reflexivity].
  - now rewrite IH.
Qed.

(** ** Properties of the heap operations *)

Lemma with_props_idem o ps qs :
  with_props (with_props o ps) qs = with_props o qs.
Proof. now destruct o. Qed.

Lemma named_props_with_props o ps : named_props (with_props o ps) = ps.
Proof. now destruct o. Qed.

Lemma get_prop_named w l o k :
  w_heap w !! l = Some o -> named_key k ->
  get_prop (VRef l) k w =
  Ok (default VUndefined (props_get k (named_props o))) w.
Proof.
  intros Hl (Hi & Hn & Hp). unfold get_prop. run. rewrite Hl.
  unfold own_or_undefined.
  destruct o as [ps|es ps]; simpl; rewrite ?Hi, ?Hn, ?Hp;
    now destruct (props_get k ps).
Qed.

Lemma props_assign_named k v ps :
  (k =? "__proto__")%string = false ->
  props_assign k v ps = Some (props_set k v ps).
Proof. intros H. unfold props_assign, reaches_proto_setter. now rewrite H. Qed.

Lemma set_prop_named w l o k v :
  w_heap w !! l = Some o -> named_key k ->
  set_prop (VRef l) k v w =
  Ok tt (mkWorld (<[l := with_props o (props_set k v (named_props o))]>
                    (w_heap w)) (w_trace w)).
Proof.
  intros Hl (Hi & Hn & Hp). unfold set_prop. run. rewrite Hl.
  destruct o as [ps|es ps]; simpl; rewrite ?Hi, ?Hn;
    now rewrite (props_assign_named k v ps Hp).
Qed.

Lemma delete_prop_named w l o k :
  w_heap w !! l = Some o -> named_key k ->
  delete_prop (VRef l) k w =
  Ok tt (mkWorld (<[l := with_props o (props_delete k (named_props o))]>
                    (w_heap w)) (w_trace w)).
Proof.
  intros Hl (Hi & Hn & Hp). unfold delete_prop. run. rewrite Hl.
  destruct o; simpl; [reflexivity|]. now rewrite Hi, Hn.
Qed.

Lemma lookup_insert_heap (h : heap) l o o' :
  h !! l = Some o -> <[l := o']> h !! l = Some o'.
Proof.
  intros H. apply list_lookup_insert_eq. now apply lookup_lt_Some in H.
Qed.

Lemma translateResponse_ref w l o :
  w_heap w !! l = Some o ->
  translateResponse (VRef l) w =
  Ok (VRef l)
     (mkWorld (<[l := with_props o (translated_props (named_props o))]>
                 (w_heap w)) (w_trace w)).
Proof.
  intros Hl. unfold translateResponse. cbn [truthy].
  assert (Ks : named_key "_s") by (repeat split).
  assert (Kb : named_key "_b") by (repeat split).
  assert (Kst : named_key "status") by (repeat split).
  assert (Kbo : named_key "body") by (repeat split).
  unfold bind at 1. rewrite (get_prop_named _ _ _ _ Hl Ks).
  unfold bind at 1. rewrite (set_prop_named _ _ _ _ _ Hl Kst).
  pose proof (lookup_insert_heap _ _ _
    (with_props o (props_set "status"
       (default VUndefined (props_get "_s" (named_props o))) (named_props o)))
    Hl) as H1.
  unfold bind at 1.
  rewrite (delete_prop_named (mkWorld _ _) l _ _ H1 Ks). cbn [w_heap w_trace].
  rewrite list_insert_insert_eq, with_props_idem, named_props_with_props.
  pose proof (lookup_insert_heap _ _ _
    (with_props o (props_delete "_s" (props_set "status"
       (default VUndefined (props_get "_s" (named_props o))) (named_props o))))
    Hl) as H2.
  unfold bind at 1.
  rewrite (get_prop_named (mkWorld _ _) l _ _ H2 Kb). cbn [w_heap w_trace].
  unfold bind at 1.
  rewrite (set_prop_named (mkWorld _ _) l _ _ _ H2 Kbo). cbn [w_heap w_trace].
  rewrite list_insert_insert_eq, with_props_idem, named_props_with_props.
  pose proof (lookup_insert_heap _ _ _
    (with_props o (props_set "body"
       (default VUndefined (props_get "_b" (props_delete "_s"
          (props_set "status"
             (default VUndefined (props_get "_s" (named_props o)))
             (named_props o)))))
       (props_delete "_s" (props_set "status"
          (default VUndefined (props_get "_s" (named_props o)))
          (named_props o)))))
    Hl) as H3.
  unfold bind at 1.
  rewrite (delete_prop_named (mkWorld _ _) l _ _ H3 Kb). cbn [w_heap w_trace].
  rewrite list_insert_insert_eq, with_props_idem, named_props_with_props.
  reflexivity.
Qed.

Lemma translateResponse_primitive v w :
  truthy v = true -> primitive v = true ->
  translateResponse v w = Throw EngineTypeError w.
Proof.
  intros Ht Hp. unfold translateResponse. rewrite Ht.
  destruct v; try discriminate; reflexivity.
Qed.

Lemma translateResponse_falsy v w :
  truthy v = false -> translateResponse v w = Ok v w.
Proof. intros H. unfold translateResponse. now rewrite H. Qed.

Lemma translateResponse_dangling l w :
  w_heap w !! l = None -> translateResponse (VRef l) w = Unsupported.
Proof.
  intros H. unfold translateResponse. cbn [truthy].
  unfold bind at 1. unfold get_prop, bind, get_heap. now rewrite H.
Qed.

Lemma translateResponse_ok res r w w' :
  translateResponse res w = Ok r w' ->
  r = res /\
  w_trace w' = w_trace w /\
  length (w_heap w') = length (w_heap w) /\
  forall l', res <> VRef l' -> w_heap w' !! l' = w_heap w !! l'.
Proof.
  intros H. destruct (truthy res) eqn:Ht.
  - destruct res as [| | | | |l];
      try (rewrite translateResponse_primitive in H by auto; discriminate).
    destruct (w_heap w !! l) as [o|] eqn:Hl.
    + rewrite (translateResponse_ref w l o Hl) in H.
      injection H as <- <-. cbn [w_heap w_trace]. repeat split.
      * apply length_insert.
      * intros l' Hne. apply list_lookup_insert_ne. congruence.
    + rewrite translateResponse_dangling in H by assumption. discriminate.
  - rewrite translateResponse_falsy in H by assumption.
    injection H as <- <-. auto.
Qed.

(** ** The response translator *)

(** A concrete reply: [{_s: 200, _b: {ok: true}}] becomes
    [{status: 200, body: {ok: true}}], in place. *)
Example translateResponse_reply :
  translateResponse (VRef 0%nat) reply_world =
  Ok (VRef 0%nat)
     (mkWorld [OMap [("status", VNum 200); ("body", VRef 1%nat)];
               OMap [("ok", VBool true)]] []).
Proof. reflexivity. Qed.

(** C2, as stated, fails on a truthy primitive: the string ["err"] is
    truthy, and the strict-mode write of [status] on it raises a
    [TypeError]; nothing is returned. *)
Lemma translateResponse_truthy_primitive :
  truthy (VStr "err") = true /\
  translateResponse (VStr "err") empty_world =
  Throw EngineTypeError empty_world.
Proof. split; reflexivity. Qed.

(** C2 (amended): applied to a falsy value the translator returns it
    unchanged and touches nothing; applied to a reference to an object (a
    mapping or an array) it returns the same reference, and on that same
    object [status] and [body] hold what [_s] and [_b] held ([undefined]
    when absent), [_s] and [_b] are gone, and every other property is as it
    was. *)
Theorem translateResponse_spec (res : value) (w : world) :
  (truthy res = false -> translateResponse res w = Ok res w) /\
  (forall l o, res = VRef l -> w_heap w !! l = Some o ->
     exists ps',
       translateResponse res w =
       Ok res (mkWorld (<[l := with_props o ps']> (w_heap w)) (w_trace w)) /\
       props_get "status" ps' =
         Some (default VUndefined (props_get "_s" (named_props o))) /\
       props_get "body" ps' =
         Some (default VUndefined (props_get "_b" (named_props o))) /\
       props_get "_s" ps' = None /\
       props_get "_b" ps' = None /\
       forall k, k <> "status" -> k <> "body" -> k <> "_s" -> k <> "_b" ->
         props_get k ps' = props_get k (named_props o)).
Proof.
  split.
  - intros Hf. unfold translateResponse. now rewrite Hf.
  - intros l o -> Hl. exists (translated_props (named_props o)).
    split; [now apply translateResponse_ref|].
    unfold translated_props.
    set (ps := named_props o).
    set (s := default VUndefined (props_get "_s" ps)).
    assert (Hb : props_get "_b" (props_delete "_s" (props_set "status" s ps))
                 = props_get "_b" ps).
    { rewrite props_get_delete_ne by discriminate.
      now rewrite props_get_set_ne by discriminate. }
    rewrite Hb. repeat split.
    + rewrite props_get_delete_ne by discriminate.
      rewrite props_get_set_ne by discriminate.
      rewrite props_get_delete_ne by discriminate.
      apply props_get_set_eq.
    + rewrite props_get_delete_ne by discriminate.
      apply props_get_set_eq.
    + rewrite props_get_delete_ne by discriminate.
      rewrite props_get_set_ne by discriminate.
      apply props_get_delete_eq.
    + apply props_get_delete_eq.
    + intros k H1 H2 H3 H4.
      rewrite props_get_delete_ne by congruence.
      rewrite props_get_set_ne by congruence.
      rewrite props_get_delete_ne by congruence.
      now rewrite props_get_set_ne by congruence.
Qed.

Lemma translateResponse_spec_witness :
  translateResponse VNull empty_world = Ok VNull empty_world /\
  exists ps',
    translateResponse (VRef 0%nat) reply_world =
    Ok (VRef 0%nat)
       (mkWorld (<[0%nat := OMap ps']> (w_heap reply_world)) []) /\
    props_get "status" ps' = Some (VNum 200) /\
    props_get "body" ps' = Some (VRef 1%nat) /\
    props_get "_s" ps' = None /\
    props_get "_b" ps' = None.
Proof.
  split.
  - apply (proj1 (translateResponse_spec VNull empty_world)). reflexivity.
  - destruct (proj2 (translateResponse_spec (VRef 0%nat) reply_world)
                0%nat (OMap [("_s", VNum 200); ("_b", VRef 1%nat)])
                eq_refl eq_refl)
      as (ps' & H1 & H2 & H3 & H4 & H5 & _).
    exists ps'. repeat split; assumption.
Defined.

(** ** The constructor *)

(** C9: the constructor raises InvalidArgument (a [TypeError]) exactly when
    the method or the URL is not a string; the method is checked first, so
    a non-string method is the one reported whatever the URL is; the error
    is raised with the world untouched, so before any interaction with the
    transport; with two strings the builder is returned, its body a fresh
    empty mapping. *)
Theorem http_validation (method url : value) (w : world) :
  (isString method = false ->
     http method url w = Throw (TypeError "HTTP method must be a string") w) /\
  (isString method = true -> isString url = false ->
     http method url w = Throw (TypeError "HTTP URL must be a string") w) /\
  (forall m u, method = VStr m -> url = VStr u ->
     http method url w =
     Ok (fresh_builder m u (length (w_heap w)))
        (mkWorld (w_heap w ++ [OMap []])%list (w_trace w))) /\
  ((exists e w', http method url w = Throw e w') <->
   (isString method = false \/ isString url = false)) /\
  (forall e w', http method url w = Throw e w' ->
     (exists msg, e = TypeError msg) /\ w' = w).
Proof.
  repeat split.
  - destruct method; simpl; try reflexivity; discriminate.
  - destruct method; simpl; try discriminate.
    destruct url; simpl; try reflexivity; discriminate.
  - intros m u -> ->. reflexivity.
  - intros (e & w' & H). destruct method; simpl; auto.
    destruct url; simpl; auto. discriminate.
  - intros [H|H].
    + destruct method; try discriminate; eexists _, _; reflexivity.
    + destruct method; try (eexists _, _; reflexivity).
      destruct url; try discriminate; eexists _, _; reflexivity.
  - destruct method; simpl in H; try (inversion H; eauto).
    destruct url; simpl in H; inversion H; eauto.
  - destruct method; simpl in H; try (now inversion H).
    destruct url; simpl in H; now inversion H.
Qed.

Lemma http_validation_witness :
  http (VNum 7) VNull empty_world =
    Throw (TypeError "HTTP method must be a string") empty_world /\
  http (VStr "get") (VNum 7) empty_world =
    Throw (TypeError "HTTP URL must be a string") empty_world /\
  http (VStr "get") (VStr "/items") empty_world =
    Ok (fresh_builder "get" "/items" 0) (mkWorld [OMap []] []).
Proof.
  pose proof (http_validation (VNum 7) VNull empty_world) as (H1 & _).
  pose proof (http_validation (VStr "get") (VNum 7) empty_world)
    as (_ & H2 & _).
  pose proof (http_validation (VStr "get") (VStr "/items") empty_world)
    as (_ & _ & H3 & _).
  split; [apply H1; reflexivity|].
  split; [apply H2; reflexivity|].
  apply (H3 "get" "/items"); reflexivity.
Defined.

(** ** The timeout *)

(** C8: [timeout] raises InvalidArgument (a [TypeError]) exactly when its
    argument is not numeric; a number that is strictly positive is stored
    in [_timeout], every other field kept; a number that is not ([0], a
    negative one, [NaN]) is ignored and leaves the builder, and so any
    timeout stored before, as it was.  After [timeout(-5)], [timeout(100)]
    and [timeout(0)] the timeout is 100. *)
Theorem timeout_spec (ms : value) (b : builder) (w : world) :
  ((exists e w', timeout ms b w = Throw e w') <-> isNumber ms = false) /\
  (isNumber ms = false ->
     timeout ms b w = Throw (TypeError "Timeout must be a numeric value") w) /\
  (forall n, ms = VNum n -> (0 <? n)%float = true ->
     timeout ms b w =
     Ok (mkBuilder (_method b) (_url b) (_body b) (VNum n) (_expectResponse b))
        w) /\
  (forall n, ms = VNum n -> (0 <? n)%float = false -> timeout ms b w = Ok b w) /\
  (b1 <- timeout (VNum (-5)) b ;;
   b2 <- timeout (VNum 100) b1 ;;
   timeout (VNum 0) b2) w =
  Ok (mkBuilder (_method b) (_url b) (_body b) (VNum 100) (_expectResponse b))
     w.
Proof.
  repeat split.
  - intros (e & w' & H). destruct ms; try reflexivity.
    unfold timeout in H. simpl in H. destruct (0 <? x)%float; discriminate.
  - intros H. destruct ms; try discriminate; eexists _, _; reflexivity.
  - intros H. destruct ms; try discriminate; reflexivity.
  - intros n -> Hn. unfold timeout. cbn [isNumber negb]. now rewrite Hn.
  - intros n -> Hn. unfold timeout. cbn [isNumber negb]. now rewrite Hn.
Qed.

Lemma timeout_spec_witness :
  timeout (VStr "soon") (fresh_builder "get" "/items" 0) empty_world =
    Throw (TypeError "Timeout must be a numeric value") empty_world /\
  timeout (VNum 0.5) (fresh_builder "get" "/items" 0) empty_world =
    Ok (mkBuilder "get" "/items" (VRef 0%nat) (VNum 0.5) (VBool true))
       empty_world /\
  timeout (VNum nan)
    (mkBuilder "get" "/items" (VRef 0%nat) (VNum 100) (VBool true))
    empty_world =
    Ok (mkBuilder "get" "/items" (VRef 0%nat) (VNum 100) (VBool true))
       empty_world /\
  timeout (VNum 0)
    (mkBuilder "get" "/items" (VRef 0%nat) (VNum 100) (VBool true))
    empty_world =
    Ok (mkBuilder "get" "/items" (VRef 0%nat) (VNum 100) (VBool true))
       empty_world.
Proof.
  split; [|split; [|split]].
  - apply (timeout_spec (VStr "soon") (fresh_builder "get" "/items" 0)
             empty_world). reflexivity.
  - apply (timeout_spec (VNum 0.5) (fresh_builder "get" "/items" 0)
             empty_world) with (n := 0.5%float); reflexivity.
  - apply (proj1 (proj2 (proj2 (proj2
      (timeout_spec (VNum nan)
         (mkBuilder "get" "/items" (VRef 0%nat) (VNum 100) (VBool true))
         empty_world)))) nan); reflexivity.
  - apply (proj1 (proj2 (proj2 (proj2
      (timeout_spec (VNum 0)
         (mkBuilder "get" "/items" (VRef 0%nat) (VNum 100) (VBool true))
         empty_world)))) 0%float); reflexivity.
Defined.

(** ** The query string *)

Lemma append_assoc (a b c : string) : ((a ++ b) ++ c = a ++ b ++ c)%string.
Proof. induction a; simpl; congruence. Qed.



Lemma ToString_world v w s w' : ToString v w = Ok s w' -> w' = w.
Proof.
  unfold ToString, bind, get_heap, ret, unsupported.
  destruct (to_string (S (length (w_heap w))) (w_heap w) v); intros H;
    now inversion H.
Qed.

Lemma forEach_pairs w ps : forall acc l,
  mapM (encoded_pair (w_heap w)) ps = Some l ->
  forEach_props ps
    (fun key val queryArray =>
       v <- ToString val ;;
       ret (queryArray ++
            [(encodeURIComponent key ++ "=" ++ encodeURIComponent v)%string])%list)
    acc w = Ok (acc ++ l)%list w.
Proof.
  induction ps as [|[k v] r IH]; intros acc l H.
  - injection H as <-. cbn [forEach_props]. unfold ret.
    now rewrite app_nil_r.
  - cbn [mapM] in H.
    apply bind_Some in H as (y & Hy & H).
    apply bind_Some in H as (l' & Hl' & H). injection H as <-.
    unfold encoded_pair in Hy. cbn [fst snd] in Hy.
    cbn [forEach_props].
    unfold bind at 1. unfold bind at 1. unfold ToString at 1.
    unfold bind at 1. unfold get_heap at 1.
    destruct (to_string (S (length (w_heap w))) (w_heap w) v) as [s|];
      [|discriminate].
    injection Hy as <-. unfold ret at 1 2.
    rewrite (IH _ l' Hl'). now rewrite <- app_assoc.
Qed.


Lemma queryString_array l es ps w strs :
  w_heap w !! l = Some (OArr es ps) ->
  mapM (elem_string (w_heap w)) es = Some strs ->
  queryString (VRef l) w = Ok (join "&" strs) w.
Proof.
  intros Hl Hs. unfold queryString, isArray, elems_of, array_join. run.
  now rewrite Hl, Hs.
Qed.

Lemma queryString_mapping l ps w strs :
  w_heap w !! l = Some (OMap ps) ->
  mapM (encoded_pair (w_heap w)) ps = Some strs ->
  queryString (VRef l) w = Ok (join "&" strs) w.
Proof.
  intros Hl Hs. unfold queryString, isArray, isObject, forEach, own_props.
  unfold bind at 1. unfold get_heap at 1. cbn [isString]. rewrite Hl.
  unfold bind at 1. unfold bind at 1. unfold get_heap at 1. rewrite Hl.
  now rewrite (forEach_pairs w ps [] strs Hs).
Qed.


Lemma query_truthy q qs b w :
  truthy q = true -> queryString q w = Ok qs w ->
  query q b w = Ok (set_url (appended (_url b) qs) b) w.
Proof.
  intros Ht Hq. unfold query, appended. rewrite Ht.
  unfold bind. rewrite Hq. now destruct (0 <=? indexOf (_url b) "?").
Qed.






(** ** The body *)

Lemma reaches_proto_setter_other k ps :
  (k =? "__proto__")%string = false -> reaches_proto_setter k ps = false.
Proof. intros H. unfold reaches_proto_setter. now rewrite H. Qed.

Lemma props_get_step k k0 x0 acc :
  k <> k0 ->
  props_get k (if reaches_proto_setter k0 acc then acc
               else props_set k0 x0 acc) = props_get k acc.
Proof.
  intros Hne. destruct (reaches_proto_setter k0 acc); [reflexivity|].
  apply props_get_set_ne. congruence.
Qed.

Lemma merged_cons psb k0 x0 r :
  merged psb ((k0, x0) :: r) =
  merged (if reaches_proto_setter k0 psb then psb else props_set k0 x0 psb) r.
Proof. reflexivity. Qed.

Lemma props_get_merged_absent k psv : forall psb,
  props_get k psv = None -> props_get k (merged psb psv) = props_get k psb.
Proof.
  induction psv as [|[k0 x0] r IH]; intros psb H; cbn [props_get] in H;
    [reflexivity|].
  destruct (String.eqb_spec k k0) as [->|Hne]; [discriminate|].
  rewrite merged_cons, (IH _ H). now apply props_get_step.
Qed.

Lemma props_get_not_key k (ps : props) :
  ~ In k (map fst ps) -> props_get k ps = None.
Proof.
  induction ps as [|[k0 x0] r IH]; simpl; [reflexivity|].
  intros H. destruct (String.eqb_spec k k0) as [->|Hne]; [tauto|].
  apply IH. tauto.
Qed.

(** A key of the argument gets the argument's value, unless the key is
    [__proto__] and the body has no own property of that name. *)
Lemma props_get_merged_present k x psv : forall psb,
  List.NoDup (map fst psv) -> props_get k psv = Some x ->
  reaches_proto_setter k psb = false ->
  props_get k (merged psb psv) = Some x.
Proof.
  induction psv as [|[k0 x0] r IH]; intros psb Hnd H Hr;
    cbn [props_get map fst] in *; [discriminate|].
  inversion Hnd as [|? ? Hnotin Hnd']; subst.
  rewrite merged_cons.
  destruct (String.eqb_spec k k0) as [->|Hne].
  - injection H as ->. rewrite Hr.
    rewrite props_get_merged_absent by now apply props_get_not_key.
    apply props_get_set_eq.
  - apply IH; try assumption.
    unfold reaches_proto_setter at 1. unfold reaches_proto_setter in Hr.
    now rewrite props_get_step.
Qed.

(** An own [__proto__] key of the argument is never merged into a body
    that has none. *)
Lemma props_get_merged_proto psv : forall psb,
  props_get "__proto__" psb = None ->
  props_get "__proto__" (merged psb psv) = None.
Proof.
  induction psv as [|[k0 x0] r IH]; intros psb H; [exact H|].
  rewrite merged_cons. apply IH.
  destruct (String.eqb_spec "__proto__" k0) as [<-|Hne].
  - unfold reaches_proto_setter. now rewrite H.
  - now rewrite props_get_step.
Qed.

Lemma forEach_merge lb psv : forall psb w,
  changes_prototype psv = false ->
  w_heap w !! lb = Some (OMap psb) ->
  forEach_props psv (fun key val _ => set_prop (VRef lb) key val) tt w =
  Ok tt (mkWorld (<[lb := OMap (merged psb psv)]> (w_heap w)) (w_trace w)).
Proof.
  induction psv as [|[k x] r IH]; intros psb w Hc Hl;
    [cbn [forEach_props merged fold_left]
    |cbn [forEach_props]; rewrite merged_cons].
  - unfold ret. rewrite list_insert_id by assumption. now destruct w.
  - cbn [changes_prototype existsb fst snd] in Hc.
    apply orb_false_iff in Hc as [Hkx Hr].
    unfold bind at 1. unfold set_prop at 1. unfold bind at 1.
    unfold get_heap at 1. rewrite Hl. unfold props_assign.
    cbn [fst snd].
    assert (Step : forall ps',
      forEach_props r (fun key val _ => set_prop (VRef lb) key val) tt
        (mkWorld (<[lb := OMap ps']> (w_heap w)) (w_trace w)) =
      Ok tt (mkWorld (<[lb := OMap (merged ps' r)]> (w_heap w)) (w_trace w))).
    { intros ps'.
      rewrite (IH ps' (mkWorld _ _) Hr (lookup_insert_heap _ _ _ _ Hl)).
      cbn [w_heap w_trace]. now rewrite list_insert_insert_eq. }
    destruct (reaches_proto_setter k psb) eqn:Hs.
    + unfold reaches_proto_setter in Hs.
      apply andb_true_iff in Hs as [Hk _]. rewrite Hk in Hkx.
      cbn [andb] in Hkx. rewrite Hkx. unfold put_heap at 1. apply Step.
    + unfold put_heap at 1. apply Step.
Qed.

Lemma body_replace v b w :
  isObject (w_heap w) v = false -> body v b w = Ok (set_body v b) w.
Proof. intros H. unfold body. run. now rewrite H. Qed.

Lemma body_merge v b w lb psb :
  isObject (w_heap w) v = true -> _body b = VRef lb ->
  w_heap w !! lb = Some (OMap psb) ->
  changes_prototype (own_props (w_heap w) v) = false ->
  body v b w =
  Ok b (mkWorld (<[lb := OMap (merged psb (own_props (w_heap w) v))]>
                   (w_heap w)) (w_trace w)).
Proof.
  intros Ho Hb Hl Hc. unfold body. unfold bind at 1. unfold get_heap at 1.
  rewrite Ho, Hb. unfold bind at 1. unfold forEach at 1.
  unfold bind at 1. unfold get_heap at 1.
  now rewrite (forEach_merge lb _ psb w Hc Hl).
Qed.

Lemma isObject_insert_other (h : heap) lb o v :
  v <> VRef lb -> isObject (<[lb := o]> h) v = isObject h v.
Proof.
  intros Hne. destruct v as [| | | | |l]; try reflexivity. simpl.
  rewrite list_lookup_insert_ne by congruence. reflexivity.
Qed.

Lemma own_props_insert_other (h : heap) lb o v :
  v <> VRef lb -> own_props (<[lb := o]> h) v = own_props h v.
Proof.
  intros Hne. destruct v as [| | | | |l]; try reflexivity. simpl.
  rewrite list_lookup_insert_ne by congruence. reflexivity.
Qed.

(** C5, as stated, fails when the accumulated body is not an object: after
    [body("abc")], the call [body({a: 1})] does not merge anything; the
    write of [a] on the string raises a [TypeError]. *)
Lemma body_merge_onto_string :
  isObject (w_heap merge_world) (VRef 0%nat) = true /\
  (b <- http (VStr "put") (VStr "/items") ;;
   b1 <- body (VStr "abc") b ;;
   body (VRef 0%nat) b1) merge_world =
  Throw EngineTypeError
    (mkWorld [OMap [("a", VNum 1)]; OMap [("b", VNum 2)]; OMap []] []).
Proof. split; reflexivity. Qed.

(** C5 (amended): a value that is not a plain mapping replaces the
    accumulated body outright, whatever it is, and no other field of the
    builder changes.  A plain mapping, when the accumulated body is itself
    a mapping (and the argument has no own [__proto__] key holding [null]
    or an object, which would go to the prototype setter), has its keys
    assigned onto that mapping in place: a key of the argument other than
    [__proto__] gets the argument's value (last write wins), a key the
    argument does not have keeps its value, and [__proto__] is not added.
    Hence after two non-mapping arguments the body is the second one, and
    after two mapping arguments a key that only the first one has keeps
    its first-call value. *)
Theorem body_spec (v : value) (b : builder) (w : world) :
  (isObject (w_heap w) v = false ->
     body v b w =
     Ok (mkBuilder (_method b) (_url b) v (_timeout b) (_expectResponse b))
        w) /\
  (forall lb psb,
     isObject (w_heap w) v = true -> _body b = VRef lb ->
     w_heap w !! lb = Some (OMap psb) ->
     changes_prototype (own_props (w_heap w) v) = false ->
     exists ps',
       body v b w =
       Ok b (mkWorld (<[lb := OMap ps']> (w_heap w)) (w_trace w)) /\
       (forall k, props_get k (own_props (w_heap w) v) = None ->
          props_get k ps' = props_get k psb) /\
       (List.NoDup (map fst (own_props (w_heap w) v)) ->
        forall k x, k <> "__proto__" ->
          props_get k (own_props (w_heap w) v) = Some x ->
          props_get k ps' = Some x) /\
       (props_get "__proto__" psb = None ->
          props_get "__proto__" ps' = None)) /\
  (forall v2,
     isObject (w_heap w) v = false -> isObject (w_heap w) v2 = false ->
     (b1 <- body v b ;; body v2 b1) w =
     Ok (mkBuilder (_method b) (_url b) v2 (_timeout b) (_expectResponse b))
        w) /\
  (forall v2 lb psb,
     isObject (w_heap w) v = true -> isObject (w_heap w) v2 = true ->
     _body b = VRef lb -> w_heap w !! lb = Some (OMap psb) ->
     v2 <> VRef lb ->
     List.NoDup (map fst (own_props (w_heap w) v)) ->
     changes_prototype (own_props (w_heap w) v) = false ->
     changes_prototype (own_props (w_heap w) v2) = false ->
     exists ps'',
       (b1 <- body v b ;; body v2 b1) w =
       Ok b (mkWorld (<[lb := OMap ps'']> (w_heap w)) (w_trace w)) /\
       forall k x,
         k <> "__proto__" ->
         props_get k (own_props (w_heap w) v) = Some x ->
         props_get k (own_props (w_heap w) v2) = None ->
         props_get k ps'' = Some x).
Proof.
  assert (Plain : forall k psb, k <> "__proto__" ->
            reaches_proto_setter k psb = false).
  { intros k psb Hk. apply reaches_proto_setter_other.
    now destruct (String.eqb_spec k "__proto__"). }
  split; [apply body_replace|]. split; [|split].
  - intros lb psb Ho Hb Hl Hc.
    exists (merged psb (own_props (w_heap w) v)).
    split; [apply body_merge; assumption|]. split; [|split].
    + intros k. apply props_get_merged_absent.
    + intros Hnd k x Hk Hx. apply props_get_merged_present; auto.
    + apply props_get_merged_proto.
  - intros v2 H1 H2. unfold bind. rewrite (body_replace v b w H1).
    now rewrite (body_replace v2 (set_body v b) w H2).
  - intros v2 lb psb H1 H2 Hb Hl Hne Hnd Hc1 Hc2.
    unfold bind. rewrite (body_merge v b w lb psb H1 Hb Hl Hc1).
    rewrite (body_merge v2 b (mkWorld _ _) lb
               (merged psb (own_props (w_heap w) v))).
    + cbn [w_heap w_trace]. rewrite list_insert_insert_eq.
      rewrite own_props_insert_other by assumption.
      eexists. split; [reflexivity|]. intros k x Hk Hx Hk2.
      rewrite props_get_merged_absent by assumption.
      apply props_get_merged_present; auto.
    + cbn [w_heap]. now rewrite isObject_insert_other.
    + assumption.
    + cbn [w_heap]. now apply lookup_insert_heap with (o := OMap psb).
    + cbn [w_heap]. now rewrite own_props_insert_other.
Qed.

Lemma body_spec_witness :
  body (VStr "abc") (fresh_builder "put" "/items" 1) merge_world =
    Ok (mkBuilder "put" "/items" (VStr "abc") (VNum 0) (VBool true))
       merge_world /\
  (exists ps',
     body (VRef 0%nat) (fresh_builder "put" "/items" 1) merge_world =
     Ok (fresh_builder "put" "/items" 1)
        (mkWorld [OMap [("a", VNum 1)]; OMap ps'] []) /\
     props_get "a" ps' = Some (VNum 1) /\
     props_get "b" ps' = Some (VNum 2)).
Proof.
  split.
  - apply (body_spec (VStr "abc") (fresh_builder "put" "/items" 1)
             merge_world). reflexivity.
  - destruct (proj1 (proj2
      (body_spec (VRef 0%nat) (fresh_builder "put" "/items" 1) merge_world))
      1%nat [("b", VNum 2)] eq_refl eq_refl eq_refl eq_refl)
      as (ps' & H1 & H2 & H3 & _).
    exists ps'. split; [exact H1|]. split.
    + apply H3; [|discriminate|reflexivity].
      repeat constructor; simpl; tauto.
    + apply (H2 "b"). reflexivity.
Defined.

Lemma forEach_onto_primitive target psv w :
  primitive target = true ->
  forEach_props psv (fun key val _ => set_prop target key val) tt w =
  if has_plain_key psv ||
     (match target with VUndefined | VNull => true | _ => false end &&
      match psv with [] => false | _ => true end)
  then Throw EngineTypeError w else Ok tt w.
Proof.
  intros Hp. induction psv as [|[k x] r IH]; [now destruct target|].
  cbn [forEach_props has_plain_key existsb fst]. unfold bind.
  destruct target as [| |b0|x0|s0|l]; try discriminate;
    unfold set_prop at 1.
  - unfold throw. now rewrite orb_true_r.
  - unfold throw. now rewrite orb_true_r.
  - destruct (k =? "__proto__")%string; [|reflexivity].
    unfold ret at 1. rewrite IH. unfold has_plain_key.
    cbn [negb orb andb]. now rewrite !orb_false_r.
  - destruct (k =? "__proto__")%string; [|reflexivity].
    unfold ret at 1. rewrite IH. unfold has_plain_key.
    cbn [negb orb andb]. now rewrite !orb_false_r.
  - destruct (k =? "__proto__")%string; [|reflexivity].
    unfold ret at 1. rewrite IH. unfold has_plain_key.
    cbn [negb orb andb]. now rewrite !orb_false_r.
Qed.

(** C10, as stated, fails on an argument whose only own key is
    [__proto__]: on the string body ["abc"] the write reaches the
    inherited setter, which ignores it; no [TypeError] is raised, [body]
    returns, and the body is still the string. *)
Lemma body_proto_key_onto_string :
  isObject (w_heap proto_world) (VRef 0%nat) = true /\
  own_props (w_heap proto_world) (VRef 0%nat) = [("__proto__", VNum 1)] /\
  body (VRef 0%nat)
    (mkBuilder "put" "/items" (VStr "abc") (VNum 0) (VBool true)) proto_world =
  Ok (mkBuilder "put" "/items" (VStr "abc") (VNum 0) (VBool true)) proto_world.
Proof. repeat split. Qed.

(** C10 (amended): once the accumulated body is not an object (a string, a
    number, a boolean, [null] or [undefined]), [body] with a mapping
    argument never resets the body to a fresh mapping and never merges:
    it either raises the engine's [TypeError] or returns, and in both
    cases builder and world are as they were.  It raises when the argument
    has an own key other than [__proto__], and, on a [null] or [undefined]
    body, whenever the argument has a key at all; it returns when the
    argument has no key, and when its only key is [__proto__] and the body
    is a string, a number or a boolean. *)
Theorem body_object_onto_primitive (v : value) (b : builder) (w : world) :
  isObject (w_heap w) v = true -> primitive (_body b) = true ->
  (body v b w = Throw EngineTypeError w \/ body v b w = Ok b w) /\
  (has_plain_key (own_props (w_heap w) v) = true ->
     body v b w = Throw EngineTypeError w) /\
  (_body b = VNull \/ _body b = VUndefined ->
   own_props (w_heap w) v <> [] ->
     body v b w = Throw EngineTypeError w) /\
  (own_props (w_heap w) v = [] -> body v b w = Ok b w) /\
  (_body b <> VNull -> _body b <> VUndefined ->
   has_plain_key (own_props (w_heap w) v) = false ->
     body v b w = Ok b w).
Proof.
  intros Ho Hp.
  assert (E : body v b w =
              if has_plain_key (own_props (w_heap w) v) ||
                 (match _body b with VUndefined | VNull => true | _ => false end &&
                  match own_props (w_heap w) v with [] => false | _ => true end)
              then Throw EngineTypeError w else Ok b w).
  { unfold body. unfold bind at 1. unfold get_heap at 1. rewrite Ho.
    unfold bind at 1. unfold forEach at 1. unfold bind at 1.
    unfold get_heap at 1.
    rewrite (forEach_onto_primitive (_body b) _ w Hp).
    now destruct (_ || _). }
  rewrite E. split; [|split; [|split; [|split]]].
  - destruct (_ || _); auto.
  - intros H. rewrite H. reflexivity.
  - intros [H|H] Hne; rewrite H;
      destruct (own_props (w_heap w) v); try congruence;
      cbn [andb]; now rewrite orb_true_r.
  - intros H. rewrite H. cbn [has_plain_key existsb orb].
    now rewrite andb_false_r.
  - intros H1 H2 H. rewrite H.
    destruct (_body b); try congruence; reflexivity.
Qed.

Lemma body_object_onto_primitive_witness :
  body (VRef 0%nat)
    (mkBuilder "put" "/items" VNull (VNum 0) (VBool true)) merge_world =
    Throw EngineTypeError merge_world /\
  body (VRef 0%nat)
    (mkBuilder "put" "/items" (VStr "abc") (VNum 0) (VBool true)) merge_world =
    Throw EngineTypeError merge_world /\
  body (VRef 0%nat)
    (mkBuilder "put" "/items" (VStr "abc") (VNum 0) (VBool true)) proto_world =
    Ok (mkBuilder "put" "/items" (VStr "abc") (VNum 0) (VBool true))
       proto_world.
Proof.
  split; [|split].
  - apply (proj1 (proj2 (body_object_onto_primitive (VRef 0%nat)
      (mkBuilder "put" "/items" VNull (VNum 0) (VBool true)) merge_world
      eq_refl eq_refl))). reflexivity.
  - apply (proj1 (proj2 (body_object_onto_primitive (VRef 0%nat)
      (mkBuilder "put" "/items" (VStr "abc") (VNum 0) (VBool true))
      merge_world eq_refl eq_refl))). reflexivity.
  - apply (proj2 (proj2 (proj2 (proj2 (body_object_onto_primitive (VRef 0%nat)
      (mkBuilder "put" "/items" (VStr "abc") (VNum 0) (VBool true))
      proto_world eq_refl eq_refl))))); [discriminate|discriminate|reflexivity].
Defined.

(** ** The terminal operation *)

Lemma transport_calls_app tr1 tr2 :
  transport_calls (tr1 ++ tr2) = (transport_calls tr1 ++ transport_calls tr2)%list.
Proof. apply List.filter_app. Qed.

(** C1, as stated, fails on the names of the keys: the envelope handed to
    [request] in the end-to-end example has the keys [_m], [_u] and [_b],
    so it is not [{method: "get", url: "/items?page=2", body: {}}]. *)
Lemma send_envelope_keys :
  exists r w',
    get_items_page_2 quiet_socket page_world = Ok r w' /\
    w_trace w' = [SockRequest (VRef 2%nat) (VNum 500) None] /\
    w_heap w' !! 2%nat =
      Some (OMap [("_m", VStr "get"); ("_u", VStr "/items?page=2");
                  ("_b", VRef 1%nat)]) /\
    w_heap w' !! 2%nat <>
      Some (OMap [("method", VStr "get"); ("url", VStr "/items?page=2");
                  ("body", VRef 1%nat)]) /\
    w_heap w' !! 1%nat = Some (OMap []).
Proof.
  eexists _, _. split; [reflexivity|]. repeat split. discriminate.
Qed.

(** C1 (amended): for every builder, [send] returns, and what it does
    first is to build the envelope, a fresh mapping with exactly the three
    keys [_m], [_u] and [_b], holding the builder's method, its URL (query
    strings included) and its accumulated body; the one call it makes on
    the transport is [send] of that envelope, or [request] of that
    envelope with the accumulated timeout.  In the end-to-end example the
    envelope passed to [request] is
    [{_m: "get", _u: "/items?page=2", _b: {}}], with timeout 500. *)
Theorem send_envelope (wrappedSocket : socket) (cb : option user_cb)
    (b : builder) (w : world) :
  (exists r w',
     send wrappedSocket cb b w = Ok r w' /\
     w_heap w' =
       (w_heap w ++
        [OMap [("_m", VStr (_method b)); ("_u", VStr (_url b));
               ("_b", _body b)]])%list /\
     transport_calls (w_trace w') =
       (transport_calls (w_trace w) ++
        [if truthy (_expectResponse b)
         then SockRequest (VRef (length (w_heap w))) (_timeout b)
                (option_map Translating cb)
         else SockSend (VRef (length (w_heap w)))])%list) /\
  get_items_page_2 wrappedSocket page_world =
    Ok (RetPromise (TranslatedRequest (VRef 2%nat) (VNum 500)))
       (mkWorld
          [OMap [("page", VNum 2)];
           OMap [];
           OMap [("_m", VStr "get"); ("_u", VStr "/items?page=2");
                 ("_b", VRef 1%nat)]]
          [SockRequest (VRef 2%nat) (VNum 500) None]).
Proof.
  split; [|reflexivity].
  unfold send. unfold bind at 1. unfold alloc at 1.
  destruct (truthy (_expectResponse b)); cbn [negb].
  - destruct cb as [f|]; run; eexists _, _; (split; [reflexivity|]);
      cbn [w_heap w_trace]; (split; [reflexivity|]);
      now rewrite transport_calls_app.
  - run.
    destruct (sock_send wrappedSocket _ _) as [E|];
      [destruct cb as [f|]|]; run; eexists _, _; (split; [reflexivity|]);
      cbn [w_heap w_trace]; (split; [reflexivity|]);
      rewrite ?transport_calls_app; cbn; now rewrite ?app_nil_r.
Qed.

(** C3: with [expectResponse] set to a falsy value, [send] calls the
    transport's [send] with the envelope.  When that call returns, [send]
    returns [undefined] and nothing else happens; when it throws [E] and a
    callback was given, the callback is called with [(null, E)] and [send]
    returns [undefined]; when it throws [E] and no callback was given,
    [send] returns [options.Promise.reject(E)], a promise rejected with
    [E].  In no case does [send] itself throw. *)
Theorem send_no_response (wrappedSocket : socket) (cb : option user_cb)
    (b : builder) (w : world) :
  truthy (_expectResponse b) = false ->
  let h' := (w_heap w ++ [envelope_of b])%list in
  let env := VRef (length (w_heap w)) in
  (sock_send wrappedSocket h' env = None ->
     send wrappedSocket cb b w =
     Ok (RetValue VUndefined) (mkWorld h' (w_trace w ++ [SockSend env])%list)) /\
  (forall E f,
     sock_send wrappedSocket h' env = Some E -> cb = Some f ->
     send wrappedSocket cb b w =
     Ok (RetValue VUndefined)
        (mkWorld h' (w_trace w ++ [SockSend env; Callback f VNull E])%list)) /\
  (forall E,
     sock_send wrappedSocket h' env = Some E -> cb = None ->
     send wrappedSocket cb b w =
     Ok (RetPromise (OptionsPromiseReject E))
        (mkWorld h' (w_trace w ++ [SockSend env])%list) /\
     forall reply w0,
       settle (OptionsPromiseReject E) reply w0 = Ok (Rejected (Thrown E)) w0) /\
  (forall e w', send wrappedSocket cb b w <> Throw e w').
Proof.
  intros Hf h' env.
  assert (E0 : send wrappedSocket cb b w =
    match sock_send wrappedSocket h' env with
    | None => Ok (RetValue VUndefined)
                (mkWorld h' (w_trace w ++ [SockSend env])%list)
    | Some err =>
        match cb with
        | None => Ok (RetPromise (OptionsPromiseReject err))
                    (mkWorld h' (w_trace w ++ [SockSend env])%list)
        | Some f => Ok (RetValue VUndefined)
                      (mkWorld h'
                         (w_trace w ++ [SockSend env; Callback f VNull err])%list)
        end
    end).
  { unfold h', env, envelope_of, send. unfold bind at 1. unfold alloc at 1.
    rewrite Hf. cbn [negb]. run.
    destruct (sock_send wrappedSocket _ _); [destruct cb|]; run;
      rewrite <- ?app_assoc; reflexivity. }
  rewrite E0. split; [|split; [|split]].
  - intros H. now rewrite H.
  - intros E f H1 H2. now rewrite H1, H2.
  - intros E H1 H2. now rewrite H1, H2.
  - intros e w'. destruct (sock_send wrappedSocket h' env);
      [destruct cb|]; discriminate.
Qed.

Lemma send_no_response_witness :
  send quiet_socket (Some 7%nat) silent_builder body_world =
    Ok (RetValue VUndefined)
       (mkWorld [OMap []; envelope_of silent_builder]
          [SockSend (VRef 1%nat)]) /\
  send (failing_socket (VStr "E")) (Some 7%nat) silent_builder body_world =
    Ok (RetValue VUndefined)
       (mkWorld [OMap []; envelope_of silent_builder]
          [SockSend (VRef 1%nat); Callback 7%nat VNull (VStr "E")]) /\
  send (failing_socket (VStr "E")) None silent_builder body_world =
    Ok (RetPromise (OptionsPromiseReject (VStr "E")))
       (mkWorld [OMap []; envelope_of silent_builder]
          [SockSend (VRef 1%nat)]).
Proof.
  split; [|split].
  - apply (send_no_response quiet_socket (Some 7%nat) silent_builder
             body_world eq_refl). reflexivity.
  - apply (proj1 (proj2 (send_no_response (failing_socket (VStr "E"))
             (Some 7%nat) silent_builder body_world eq_refl))
             (VStr "E") 7%nat); reflexivity.
  - apply (proj1 (proj2 (proj2 (send_no_response (failing_socket (VStr "E"))
             None silent_builder body_world eq_refl))) (VStr "E"));
      reflexivity.
Defined.

Lemma translateResponse_translatable v w :
  translatable (w_heap w) v ->
  exists w', translateResponse v w = Ok v w' /\
             w_trace w' = w_trace w /\
             forall v', translatable (w_heap w) v' ->
                        translatable (w_heap w') v'.
Proof.
  intros [Hf|(l & o & -> & Hl)].
  - exists w. rewrite translateResponse_falsy by assumption. auto.
  - eexists. split; [apply (translateResponse_ref w l o Hl)|].
    split; [reflexivity|]. intros v' [Hf'|(l' & o' & -> & Hl')];
      [now left|right]. cbn [w_heap].
    destruct (decide (l = l')) as [<-|Hne].
    + eexists l, _. split; [reflexivity|].
      now apply lookup_insert_heap with (o := o).
    + exists l', o'. split; [reflexivity|].
      now rewrite list_lookup_insert_ne.
Qed.

(** C4, as stated, fails on a reply that is a truthy primitive.  With no
    callback, a transport promise fulfilled with the string ["ok"] gives a
    promise that is rejected, with the engine's [TypeError], instead of
    resolved; with a callback, a reply [(null, "timed out")] makes the
    closure throw, and the caller's callback is not called. *)
Lemma send_reply_primitive :
  send quiet_socket None (fresh_builder "get" "/items" 0) body_world =
    Ok (RetPromise (TranslatedRequest (VRef 1%nat) (VNum 0)))
       (mkWorld [OMap []; envelope_of (fresh_builder "get" "/items" 0)]
          [SockRequest (VRef 1%nat) (VNum 0) None]) /\
  truthy (VStr "ok") = true /\
  settle (TranslatedRequest (VRef 1%nat) (VNum 0)) (Resolves (VStr "ok"))
    body_world = Ok (Rejected EngineTypeError) body_world /\
  run_sock_cb (Translating 7%nat) VNull (VStr "timed out") body_world =
    Throw EngineTypeError body_world.
Proof. repeat split. Qed.

(** C4 (amended): with [expectResponse] truthy and a callback, [send]
    calls the transport's [request] with the envelope, the accumulated
    timeout and a callback which, called with [(res, err)], each a falsy
    placeholder or an object, translates [res], then [err], in place, and
    calls the caller's callback once with the two, in that order.  Without
    a callback, [send] calls [request] with the envelope and the timeout
    and returns the promise derived from the transport's one: when the
    transport's promise is fulfilled with a falsy value or an object it is
    fulfilled with that value, translated; when the transport's promise is
    rejected with a falsy value or an object it is rejected with that
    reason, translated; and a rejection, whatever its reason, is never
    turned into a fulfilment. *)
Theorem send_expecting_response (wrappedSocket : socket) (b : builder)
    (w : world) :
  truthy (_expectResponse b) = true ->
  let h' := (w_heap w ++ [envelope_of b])%list in
  let env := VRef (length (w_heap w)) in
  (forall f,
     send wrappedSocket (Some f) b w =
     Ok (RetValue (sock_request wrappedSocket h' env (_timeout b)
                     (Translating f)))
        (mkWorld h'
           (w_trace w ++
            [SockRequest env (_timeout b) (Some (Translating f))])%list) /\
     forall res err w0,
       translatable (w_heap w0) res -> translatable (w_heap w0) err ->
       exists w1 w2,
         translateResponse res w0 = Ok res w1 /\
         translateResponse err w1 = Ok err w2 /\
         run_sock_cb (Translating f) res err w0 =
         Ok tt (mkWorld (w_heap w2) (w_trace w0 ++ [Callback f res err])%list)) /\
  send wrappedSocket None b w =
    Ok (RetPromise (TranslatedRequest env (_timeout b)))
       (mkWorld h' (w_trace w ++ [SockRequest env (_timeout b) None])%list) /\
  (forall res w0,
     translatable (w_heap w0) res ->
     exists w1,
       translateResponse res w0 = Ok res w1 /\
       settle (TranslatedRequest env (_timeout b)) (Resolves res) w0 =
       Ok (Fulfilled res) w1) /\
  (forall err w0,
     translatable (w_heap w0) err ->
     exists w1,
       translateResponse err w0 = Ok err w1 /\
       settle (TranslatedRequest env (_timeout b)) (Rejects err) w0 =
       Ok (Rejected (Thrown err)) w1) /\
  (forall err w0 v w1,
     settle (TranslatedRequest env (_timeout b)) (Rejects err) w0 <>
     Ok (Fulfilled v) w1).
Proof.
  intros Ht h' env. split; [|split; [|split; [|split]]].
  - intros f. split.
    + unfold h', env, envelope_of, send. unfold bind at 1.
      unfold alloc at 1. rewrite Ht. cbn [negb]. run.
      now rewrite <- ?app_assoc.
    + intros res err w0 Hres Herr.
      destruct (translateResponse_translatable res w0 Hres)
        as (w1 & H1 & T1 & Keep).
      destruct (translateResponse_translatable err w1 (Keep err Herr))
        as (w2 & H2 & T2 & _).
      exists w1, w2. split; [exact H1|]. split; [exact H2|].
      unfold run_sock_cb, bind. rewrite H1, H2.
      unfold call_cb, emit. now rewrite T2, T1.
  - unfold h', env, envelope_of, send. unfold bind at 1.
    unfold alloc at 1. rewrite Ht. cbn [negb]. run. reflexivity.
  - intros res w0 Hres.
    destruct (translateResponse_translatable res w0 Hres) as (w1 & H1 & _).
    exists w1. split; [exact H1|].
    unfold settle, then_translate, catch, bind. now rewrite H1.
  - intros err w0 Herr.
    destruct (translateResponse_translatable err w0 Herr) as (w1 & H1 & _).
    exists w1. split; [exact H1|].
    unfold settle, then_translate, catch, bind. now rewrite H1.
  - intros err w0 v w1. unfold settle, then_translate, catch, bind.
    destruct (translateResponse err w0); discriminate.
Qed.

Lemma send_expecting_response_witness :
  send quiet_socket (Some 7%nat) (fresh_builder "get" "/items" 0) body_world =
    Ok (RetValue VUndefined)
       (mkWorld [OMap []; envelope_of (fresh_builder "get" "/items" 0)]
          [SockRequest (VRef 1%nat) (VNum 0) (Some (Translating 7%nat))]) /\
  send quiet_socket None (fresh_builder "get" "/items" 0) body_world =
    Ok (RetPromise (TranslatedRequest (VRef 1%nat) (VNum 0)))
       (mkWorld [OMap []; envelope_of (fresh_builder "get" "/items" 0)]
          [SockRequest (VRef 1%nat) (VNum 0) None]) /\
  (exists w1 w2,
     translateResponse (VRef 0%nat) reply_world = Ok (VRef 0%nat) w1 /\
     translateResponse VUndefined w1 = Ok VUndefined w2 /\
     run_sock_cb (Translating 7%nat) (VRef 0%nat) VUndefined reply_world =
     Ok tt (mkWorld (w_heap w2)
              (w_trace reply_world ++
               [Callback 7%nat (VRef 0%nat) VUndefined])%list)) /\
  (exists w1,
     translateResponse (VRef 0%nat) reply_world = Ok (VRef 0%nat) w1 /\
     settle (TranslatedRequest (VRef 1%nat) (VNum 0)) (Resolves (VRef 0%nat))
       reply_world = Ok (Fulfilled (VRef 0%nat)) w1) /\
  (exists w1,
     translateResponse (VRef 0%nat) reply_world = Ok (VRef 0%nat) w1 /\
     settle (TranslatedRequest (VRef 1%nat) (VNum 0)) (Rejects (VRef 0%nat))
       reply_world = Ok (Rejected (Thrown (VRef 0%nat))) w1).
Proof.
  assert (T : translatable (w_heap reply_world) (VRef 0%nat)).
  { right. eexists 0%nat, _. split; reflexivity. }
  assert (U : translatable (w_heap reply_world) VUndefined) by now left.
  pose proof (send_expecting_response quiet_socket
                (fresh_builder "get" "/items" 0) body_world eq_refl)
    as (H1 & H2 & H3 & H4 & _).
  split; [apply (H1 7%nat)|]. split; [exact H2|]. split; [|split].
  - apply (proj2 (H1 7%nat) (VRef 0%nat) VUndefined reply_world T U).
  - apply (H3 (VRef 0%nat) reply_world T).
  - apply (H4 (VRef 0%nat) reply_world T).
Defined.

(** * Further properties of the module *)

(** ** The translator, beyond one reply *)

Lemma translated_props_get ps :
  props_get "status" (translated_props ps) =
    Some (default VUndefined (props_get "_s" ps)) /\
  props_get "body" (translated_props ps) =
    Some (default VUndefined (props_get "_b" ps)) /\
  props_get "_s" (translated_props ps) = None /\
  props_get "_b" (translated_props ps) = None.
Proof.
  unfold translated_props.
  set (s := default VUndefined (props_get "_s" ps)).
  assert (Hb : props_get "_b" (props_delete "_s" (props_set "status" s ps))
               = props_get "_b" ps).
  { rewrite props_get_delete_ne by discriminate.
    now rewrite props_get_set_ne by discriminate. }
  rewrite Hb. repeat split.
  - rewrite props_get_delete_ne by discriminate.
    rewrite props_get_set_ne by discriminate.
    rewrite props_get_delete_ne by discriminate.
    apply props_get_set_eq.
  - rewrite props_get_delete_ne by discriminate. apply props_get_set_eq.
  - rewrite props_get_delete_ne by discriminate.
    rewrite props_get_set_ne by discriminate. apply props_get_delete_eq.
  - apply props_get_delete_eq.
Qed.

(** X1: on every truthy value that is not an object (a non-empty string, a
    non-zero number, [true]) the translator throws the engine's
    [TypeError] and leaves heap and trace as they were. *)
Theorem translateResponse_throws_on_primitive (v : value) (w : world) :
  truthy v = true -> primitive v = true ->
  translateResponse v w = Throw EngineTypeError w.
Proof. apply translateResponse_primitive. Qed.

Lemma translateResponse_throws_on_primitive_witness :
  translateResponse (VNum 404) reply_world = Throw EngineTypeError reply_world.
Proof.
  apply (translateResponse_throws_on_primitive (VNum 404) reply_world);
    reflexivity.
Defined.

(** X2: the translator is not idempotent.  Applied a second time to the
    object it has just translated, it finds no [_s] and no [_b] any more
    and overwrites [status] and [body] with [undefined]. *)
Theorem translateResponse_twice (w : world) (l : loc) (o : object) :
  w_heap w !! l = Some o ->
  exists ps',
    (r <- translateResponse (VRef l) ;; translateResponse r) w =
    Ok (VRef l) (mkWorld (<[l := with_props o ps']> (w_heap w)) (w_trace w)) /\
    props_get "status" ps' = Some VUndefined /\
    props_get "body" ps' = Some VUndefined /\
    props_get "_s" ps' = None /\
    props_get "_b" ps' = None.
Proof.
  intros Hl.
  exists (translated_props (translated_props (named_props o))).
  split.
  - unfold bind. rewrite (translateResponse_ref w l o Hl).
    rewrite (translateResponse_ref (mkWorld _ _) l
               (with_props o (translated_props (named_props o)))).
    + cbn [w_heap w_trace].
      now rewrite list_insert_insert_eq, with_props_idem,
        named_props_with_props.
    + cbn [w_heap]. now apply lookup_insert_heap with (o := o).
  - destruct (translated_props_get (named_props o)) as (_ & _ & Hs & Hb).
    destruct (translated_props_get (translated_props (named_props o)))
      as (H1 & H2 & H3 & H4).
    rewrite Hs in H1. rewrite Hb in H2. auto.
Qed.

Lemma translateResponse_twice_witness :
  exists ps',
    (r <- translateResponse (VRef 0%nat) ;; translateResponse r) reply_world =
    Ok (VRef 0%nat)
       (mkWorld (<[0%nat := OMap ps']> (w_heap reply_world)) []) /\
    props_get "status" ps' = Some VUndefined /\
    props_get "body" ps' = Some VUndefined.
Proof.
  destruct (translateResponse_twice reply_world 0%nat
              (OMap [("_s", VNum 200); ("_b", VRef 1%nat)]) eq_refl)
    as (ps' & H1 & H2 & H3 & _).
  exists ps'. repeat split; assumption.
Defined.

(** X3: whenever the translator returns, it returns its argument, makes no
    call on a collaborator, allocates nothing, and changes no object other
    than the one it was given. *)
Theorem translateResponse_frame (res r : value) (w w' : world) :
  translateResponse res w = Ok r w' ->
  r = res /\
  w_trace w' = w_trace w /\
  length (w_heap w') = length (w_heap w) /\
  forall l', res <> VRef l' -> w_heap w' !! l' = w_heap w !! l'.
Proof. apply translateResponse_ok. Qed.

Lemma translateResponse_frame_witness :
  VRef 0%nat = VRef 0%nat /\
  w_trace (mkWorld [OMap [("status", VNum 200); ("body", VRef 1%nat)];
                    OMap [("ok", VBool true)]] []) = w_trace reply_world /\
  length (w_heap (mkWorld [OMap [("status", VNum 200); ("body", VRef 1%nat)];
                           OMap [("ok", VBool true)]] [])) =
    length (w_heap reply_world) /\
  forall l', VRef 0%nat <> VRef l' ->
    w_heap (mkWorld [OMap [("status", VNum 200); ("body", VRef 1%nat)];
                     OMap [("ok", VBool true)]] []) !! l' =
    w_heap reply_world !! l'.
Proof.
  apply (translateResponse_frame (VRef 0%nat) (VRef 0%nat) reply_world).
  reflexivity.
Defined.

(** ** The closure handed to the transport *)

(** X4: a reply with an object on one side and a falsy placeholder on the
    other reaches the caller's callback in one call: the object has been
    translated in place, the placeholder is passed as it came, and the
    positions are kept (response first, error second). *)
Theorem run_sock_cb_reply (f : user_cb) (l : loc) (o : object)
    (other : value) (w : world) :
  w_heap w !! l = Some o -> truthy other = false ->
  let w' tr :=
    mkWorld (<[l := with_props o (translated_props (named_props o))]>
               (w_heap w)) (w_trace w ++ tr)%list in
  run_sock_cb (Translating f) (VRef l) other w =
    Ok tt (w' [Callback f (VRef l) other]) /\
  run_sock_cb (Translating f) other (VRef l) w =
    Ok tt (w' [Callback f other (VRef l)]).
Proof.
  intros Hl Hf w'. unfold w', run_sock_cb, call_cb, emit. split.
  - unfold bind at 1. rewrite (translateResponse_ref w l o Hl).
    unfold bind at 1. now rewrite translateResponse_falsy.
  - unfold bind at 1. rewrite translateResponse_falsy by assumption.
    unfold bind at 1. now rewrite (translateResponse_ref w l o Hl).
Qed.

Lemma run_sock_cb_reply_witness :
  run_sock_cb (Translating 7%nat) (VRef 0%nat) VUndefined reply_world =
  Ok tt
     (mkWorld [OMap [("status", VNum 200); ("body", VRef 1%nat)];
               OMap [("ok", VBool true)]]
        [Callback 7%nat (VRef 0%nat) VUndefined]).
Proof.
  apply (run_sock_cb_reply 7%nat 0%nat
           (OMap [("_s", VNum 200); ("_b", VRef 1%nat)]) VUndefined
           reply_world eq_refl eq_refl).
Defined.

(** X5: when the transport calls the closure with a truthy primitive on
    either side (an error given as a string, say), the closure throws the
    engine's [TypeError] and the caller's callback is never called; a
    response translated before the error was looked at stays translated. *)
Theorem run_sock_cb_primitive (f : user_cb) (res err : value) (w : world) :
  (truthy res = true -> primitive res = true ->
     run_sock_cb (Translating f) res err w = Throw EngineTypeError w) /\
  (forall r w1,
     truthy err = true -> primitive err = true ->
     translateResponse res w = Ok r w1 ->
     run_sock_cb (Translating f) res err w = Throw EngineTypeError w1 /\
     w_trace w1 = w_trace w).
Proof.
  split.
  - intros Ht Hp. unfold run_sock_cb, bind.
    now rewrite translateResponse_primitive.
  - intros r w1 Ht Hp H. split.
    + unfold run_sock_cb, bind. rewrite H.
      now rewrite translateResponse_primitive.
    + now apply translateResponse_ok in H.
Qed.

Lemma run_sock_cb_primitive_witness :
  run_sock_cb (Translating 7%nat) (VStr "late") VNull reply_world =
    Throw EngineTypeError reply_world /\
  run_sock_cb (Translating 7%nat) (VRef 0%nat) (VStr "timed out") reply_world =
    Throw EngineTypeError
      (mkWorld [OMap [("status", VNum 200); ("body", VRef 1%nat)];
                OMap [("ok", VBool true)]] []).
Proof.
  split.
  - apply (run_sock_cb_primitive 7%nat (VStr "late") VNull reply_world);
      reflexivity.
  - apply (proj2 (run_sock_cb_primitive 7%nat (VRef 0%nat) (VStr "timed out")
             reply_world) (VRef 0%nat)); reflexivity.
Defined.

(** ** The promise flow *)

(** X7: a transport promise settled with a truthy primitive, on either
    side, gives a promise rejected with the engine's [TypeError]: a
    fulfilment by a string or a number is turned into a rejection, and the
    reason of such a rejection is lost. *)
Theorem settle_primitive (env t v : value) (w : world) :
  truthy v = true -> primitive v = true ->
  settle (TranslatedRequest env t) (Resolves v) w =
    Ok (Rejected EngineTypeError) w /\
  settle (TranslatedRequest env t) (Rejects v) w =
    Ok (Rejected EngineTypeError) w.
Proof.
  intros Ht Hp. unfold settle, then_translate, catch, bind.
  now rewrite translateResponse_primitive.
Qed.

Lemma settle_primitive_witness :
  settle (TranslatedRequest (VRef 1%nat) (VNum 0)) (Resolves (VStr "ok"))
    body_world = Ok (Rejected EngineTypeError) body_world /\
  settle (TranslatedRequest (VRef 1%nat) (VNum 0)) (Rejects (VStr "no"))
    body_world = Ok (Rejected EngineTypeError) body_world.
Proof.
  split.
  - apply (settle_primitive (VRef 1%nat) (VNum 0) (VStr "ok") body_world);
      reflexivity.
  - apply (settle_primitive (VRef 1%nat) (VNum 0) (VStr "no") body_world);
      reflexivity.
Defined.

(** X8: a falsy settlement passes through the promise flow untouched: the
    promise is fulfilled with the very value the transport resolved with,
    or rejected with the very reason, and nothing in the world changes. *)
Theorem settle_falsy (env t v : value) (w : world) :
  truthy v = false ->
  settle (TranslatedRequest env t) (Resolves v) w = Ok (Fulfilled v) w /\
  settle (TranslatedRequest env t) (Rejects v) w = Ok (Rejected (Thrown v)) w.
Proof.
  intros Hf. unfold settle, then_translate, catch, bind.
  now rewrite translateResponse_falsy.
Qed.

Lemma settle_falsy_witness :
  settle (TranslatedRequest (VRef 1%nat) (VNum 0)) (Resolves VUndefined)
    body_world = Ok (Fulfilled VUndefined) body_world /\
  settle (TranslatedRequest (VRef 1%nat) (VNum 0)) (Rejects VNull)
    body_world = Ok (Rejected (Thrown VNull)) body_world.
Proof.
  split.
  - apply (settle_falsy (VRef 1%nat) (VNum 0) VUndefined body_world).
    reflexivity.
  - apply (settle_falsy (VRef 1%nat) (VNum 0) VNull body_world).
    reflexivity.
Defined.

(** ** What the mutators leave alone *)

Lemma read_only_silent {A} (m : M A) : read_only m -> silent m.
Proof.
  intros H w. specialize (H w). destruct (m w); try subst; auto.
Qed.

Lemma silent_bind {A B} (m : M A) (f : A -> M B) :
  silent m -> (forall a, silent (f a)) -> silent (bind m f).
Proof.
  intros Hm Hf w. unfold bind. specialize (Hm w).
  destruct (m w) as [a w1|e w1|]; auto.
  specialize (Hf a w1). destruct (f a w1); congruence.
Qed.

Lemma read_only_bind {A B} (m : M A) (f : A -> M B) :
  read_only m -> (forall a, read_only (f a)) -> read_only (bind m f).
Proof.
  intros Hm Hf w. unfold bind. specialize (Hm w).
  destruct (m w) as [a w1|e w1|]; auto.
  subst w1. apply Hf.
Qed.

Lemma read_only_ret {A} (a : A) : read_only (ret a).
Proof. now intros w. Qed.

Lemma read_only_throw {A} e : read_only (@throw A e).
Proof. now intros w. Qed.

Lemma read_only_unsupported {A} : read_only (@unsupported A).
Proof. now intros w. Qed.

Lemma read_only_get_heap : read_only get_heap.
Proof. now intros w. Qed.

Lemma silent_set_prop target k v : silent (set_prop target k v).
Proof.
  intros w.
  unfold set_prop, bind, get_heap, put_heap, throw, unsupported, ret.
  repeat case_match; simplify_eq; done.
Qed.

Lemma silent_forEach_props {S} (f : string -> value -> S -> M S) ps :
  (forall k v s, silent (f k v s)) -> forall s, silent (forEach_props ps f s).
Proof.
  intros Hf. induction ps as [|[k v] r IH]; intros s; cbn [forEach_props].
  - apply read_only_silent, read_only_ret.
  - apply silent_bind; auto.
Qed.

Lemma read_only_forEach_props {S} (f : string -> value -> S -> M S) ps :
  (forall k v s, read_only (f k v s)) ->
  forall s, read_only (forEach_props ps f s).
Proof.
  intros Hf. induction ps as [|[k v] r IH]; intros s; cbn [forEach_props].
  - apply read_only_ret.
  - apply read_only_bind; auto.
Qed.

Lemma read_only_ToString v : read_only (ToString v).
Proof.
  unfold ToString. apply read_only_bind; [apply read_only_get_heap|].
  intros h. destruct (to_string (S (length h)) h v);
    [apply read_only_ret|apply read_only_unsupported].
Qed.

Lemma read_only_array_join sep es : read_only (array_join sep es).
Proof.
  unfold array_join. apply read_only_bind; [apply read_only_get_heap|].
  intros h. destruct (mapM (elem_string h) es);
    [apply read_only_ret|apply read_only_unsupported].
Qed.

Lemma read_only_queryString q : read_only (queryString q).
Proof.
  unfold queryString. apply read_only_bind; [apply read_only_get_heap|].
  intros h. destruct (isString q); [apply read_only_ret|].
  destruct (isArray h q); [apply read_only_array_join|].
  destruct (isObject h q); [|apply read_only_throw].
  apply read_only_bind; [|intros; apply read_only_ret].
  unfold forEach. apply read_only_bind; [apply read_only_get_heap|].
  intros h'. apply read_only_forEach_props. intros k v s.
  apply read_only_bind; [apply read_only_ToString|].
  intros; apply read_only_ret.
Qed.

Lemma read_only_query q b : read_only (query q b).
Proof.
  unfold query. destruct (truthy q); [|apply read_only_ret].
  apply read_only_bind; [apply read_only_queryString|].
  intros qs. destruct (0 <=? indexOf (_url b) "?"); apply read_only_ret.
Qed.

Lemma read_only_timeout ms b : read_only (timeout ms b).
Proof.
  unfold timeout. destruct (isNumber ms); cbn [negb];
    [|apply read_only_throw].
  destruct ms; try apply read_only_ret.
  destruct (0 <? x)%float; apply read_only_ret.
Qed.

Lemma read_only_expectResponse v b : read_only (expectResponse v b).
Proof. apply read_only_ret. Qed.

Lemma silent_body v b : silent (body v b).
Proof.
  unfold body. apply silent_bind;
    [apply read_only_silent, read_only_get_heap|].
  intros h. destruct (isObject h v);
    [|apply read_only_silent, read_only_ret].
  apply silent_bind; [|intros; apply read_only_silent, read_only_ret].
  unfold forEach. apply silent_bind;
    [apply read_only_silent, read_only_get_heap|].
  intros h'. apply silent_forEach_props. intros k x s.
  apply silent_set_prop.
Qed.

Lemma silent_run_call c b : silent (run_call c b).
Proof.
  destruct c; cbn [run_call].
  - apply silent_body.
  - apply read_only_silent, read_only_query.
  - apply read_only_silent, read_only_timeout.
  - apply read_only_silent, read_only_expectResponse.
Qed.

Lemma silent_chain cs : forall b, silent (chain cs b).
Proof.
  induction cs as [|c r IH]; intros b; cbn [chain].
  - apply read_only_silent, read_only_ret.
  - apply silent_bind; [apply silent_run_call|auto].
Qed.

(** X9: a chain of mutator calls, however long and whether it ends by
    returning the builder or by throwing, makes no call on the transport
    and none on a callback: the trace is as it was. *)
Theorem chain_silent (cs : list call) (b : builder) (w : world) :
  match chain cs b w with
  | Ok _ w' | Throw _ w' => w_trace w' = w_trace w
  | Unsupported => True
  end.
Proof. apply (silent_chain cs b w). Qed.

(** X10: [query], [timeout] and [expectResponse] are read-only on the
    world: whether they return or throw, no object of the heap is changed
    and nothing is allocated.  (Of the mutators only [body] writes to the
    heap.) *)
Theorem non_body_calls_read_only (c : call) (b : builder) (w : world) :
  (forall v, c <> CallBody v) ->
  match run_call c b w with
  | Ok _ w' | Throw _ w' => w' = w
  | Unsupported => True
  end.
Proof.
  intros H. destruct c as [v|v|v|v]; cbn [run_call].
  - now destruct (H v).
  - apply read_only_query.
  - apply read_only_timeout.
  - apply read_only_expectResponse.
Qed.

Lemma non_body_calls_read_only_witness :
  match run_call (CallQuery (VRef 0%nat)) (fresh_builder "get" "/items" 1)
          ab_world with
  | Ok _ w' | Throw _ w' => w' = ab_world
  | Unsupported => True
  end.
Proof.
  apply (non_body_calls_read_only (CallQuery (VRef 0%nat))
           (fresh_builder "get" "/items" 1) ab_world).
  discriminate.
Defined.

(** ** What a chain of calls keeps *)

Lemma body_ok v b w b' w' :
  body v b w = Ok b' w' -> b' = b \/ b' = set_body v b.
Proof.
  unfold body, bind, get_heap, ret. intros H.
  repeat case_match; simplify_eq; auto.
Qed.

Lemma query_ok q b w b' w' :
  query q b w = Ok b' w' ->
  b' = b \/ exists suffix, b' = set_url (_url b ++ suffix) b.
Proof.
  unfold query, bind, ret. intros H.
  repeat case_match; simplify_eq; eauto.
Qed.

Lemma timeout_ok ms b w b' w' :
  timeout ms b w = Ok b' w' ->
  b' = b \/ exists n, (0 <? n)%float = true /\ b' = set_timeout (VNum n) b.
Proof.
  unfold timeout, ret, throw. intros H.
  destruct (isNumber ms); cbn [negb] in H; [|discriminate].
  destruct ms; simplify_eq; auto.
  destruct (0 <? x)%float eqn:E; simplify_eq; eauto.
Qed.

Lemma append_empty_r (s : string) : (s ++ "")%string = s.
Proof. induction s; simpl; congruence. Qed.

(** A number above zero is not below it. *)
Lemma float_positive_not_negative (x : float) :
  (0 <? x)%float = true -> (0 <=? x)%float = true.
Proof.
  rewrite ltb_spec, leb_spec.
  change (Prim2SF 0) with (S754_zero false).
  destruct (Prim2SF x) as [s|s| |s m e]; cbn; try discriminate;
    try destruct s; auto.
Qed.

Lemma run_call_keeps c b w b' w' :
  run_call c b w = Ok b' w' ->
  _method b' = _method b /\
  (exists suffix, _url b' = (_url b ++ suffix)%string) /\
  (forall n, _timeout b = VNum n -> (0 <=? n)%float = true ->
     exists m, _timeout b' = VNum m /\ (0 <=? m)%float = true /\
               ((0 <? n)%float = true -> (0 <? m)%float = true)).
Proof.
  assert (Same : exists suffix, _url b = (_url b ++ suffix)%string).
  { exists ""%string. now rewrite append_empty_r. }
  assert (Keep : forall n, _timeout b = VNum n -> (0 <=? n)%float = true ->
            exists m, _timeout b = VNum m /\ (0 <=? m)%float = true /\
                      ((0 <? n)%float = true -> (0 <? m)%float = true)).
  { intros n Hn Hpos. exists n. tauto. }
  destruct c as [v|v|v|v]; cbn [run_call]; intros H.
  - apply body_ok in H as [->| ->]; auto.
  - apply query_ok in H as [->|(suffix & ->)]; auto.
    split; [reflexivity|]. split; [now exists suffix|exact Keep].
  - apply timeout_ok in H as [->|(m & Hm & ->)]; auto.
    split; [reflexivity|]. split; [exact Same|].
    intros n Hn Hpos. exists m. cbn.
    split; [reflexivity|]. split; [now apply float_positive_not_negative|auto].
  - unfold expectResponse, ret in H. injection H as <- <-. auto.
Qed.

Lemma chain_keeps cs : forall b w b' w',
  chain cs b w = Ok b' w' ->
  _method b' = _method b /\
  (exists suffix, _url b' = (_url b ++ suffix)%string) /\
  (forall n, _timeout b = VNum n -> (0 <=? n)%float = true ->
     exists m, _timeout b' = VNum m /\ (0 <=? m)%float = true /\
               ((0 <? n)%float = true -> (0 <? m)%float = true)).
Proof.
  induction cs as [|c r IH]; intros b w b' w' H; cbn [chain] in H.
  - unfold ret in H. injection H as <- <-. split; [reflexivity|].
    split; [exists ""%string; now rewrite append_empty_r|].
    intros n Hn Hpos. exists n. tauto.
  - unfold bind in H. destruct (run_call c b w) as [b1 w1| |] eqn:Hc;
      try discriminate.
    apply run_call_keeps in Hc as (Hm1 & (s1 & Hu1) & Ht1).
    apply IH in H as (Hm2 & (s2 & Hu2) & Ht2).
    split; [congruence|]. split.
    + exists (s1 ++ s2)%string. rewrite Hu2, Hu1. apply append_assoc.
    + intros n Hn Hpos. destruct (Ht1 n Hn Hpos) as (m1 & E1 & P1 & Q1).
      destruct (Ht2 m1 E1 P1) as (m2 & E2 & P2 & Q2).
      exists m2. repeat split; auto.
Qed.

(** X11: whatever mutators are called, in whatever order, the method is
    the one given at construction and the URL is only ever extended: the
    URL before the calls is a prefix of the URL after them. *)
Theorem chain_method_and_url (cs : list call) (b b' : builder)
    (w w' : world) :
  chain cs b w = Ok b' w' ->
  _method b' = _method b /\
  exists suffix, _url b' = (_url b ++ suffix)%string.
Proof.
  intros H. apply chain_keeps in H as (H1 & H2 & _). auto.
Qed.

Lemma chain_method_and_url_witness :
  _method (set_timeout (VNum 5)
             (set_url "/items?a=1&x=1&y=2" (fresh_builder "get" "/items" 1))) =
    _method (fresh_builder "get" "/items" 1) /\
  exists suffix,
    _url (set_timeout (VNum 5)
            (set_url "/items?a=1&x=1&y=2" (fresh_builder "get" "/items" 1))) =
    (_url (fresh_builder "get" "/items" 1) ++ suffix)%string.
Proof.
  apply (chain_method_and_url
           [CallQuery (VStr "a=1"); CallTimeout (VNum 5);
            CallQuery (VRef 0%nat)]
           (fresh_builder "get" "/items" 1) _ array_world array_world).
  reflexivity.
Defined.

(** X12: the stored timeout is always a number that is not negative, and
    once it is positive it stays positive through any further calls: a
    later positive value replaces it (a smaller one too), nothing brings it
    back to zero. *)
Theorem chain_timeout (cs : list call) (b b' : builder) (w w' : world)
    (n : float) :
  chain cs b w = Ok b' w' -> _timeout b = VNum n ->
  (0 <=? n)%float = true ->
  exists m, _timeout b' = VNum m /\ (0 <=? m)%float = true /\
            ((0 <? n)%float = true -> (0 <? m)%float = true).
Proof.
  intros H. apply chain_keeps in H as (_ & _ & H3). apply H3.
Qed.

Lemma chain_timeout_witness :
  exists m,
    _timeout (set_timeout (VNum 50) (fresh_builder "get" "/items" 1)) =
      VNum m /\ (0 <=? m)%float = true /\
    ((0 <? 100)%float = true -> (0 <? m)%float = true).
Proof.
  apply (chain_timeout
           [CallTimeout (VNum 50); CallTimeout (VNum (-1));
            CallTimeout (VNum 0)]
           (set_timeout (VNum 100) (fresh_builder "get" "/items" 1))
           _ array_world array_world 100%float); reflexivity.
Defined.

(** ** Edge cases of the query string *)

(** X13: an empty array and a mapping without properties are truthy, so
    [query] does append for them: the URL gets a bare separator, [?] or
    [&], with nothing after it. *)
Theorem query_empty_collection (l : loc) (b : builder) (w : world) :
  (exists ps, w_heap w !! l = Some (OArr [] ps)) \/
  w_heap w !! l = Some (OMap []) ->
  query (VRef l) b w =
  Ok (mkBuilder (_method b)
        (_url b ++ (if 0 <=? indexOf (_url b) "?" then "&" else "?"))
        (_body b) (_timeout b) (_expectResponse b)) w.
Proof.
  intros H.
  assert (Q : queryString (VRef l) w = Ok "" w).
  { destruct H as [[ps H]|H].
    - now apply (queryString_array l [] ps w []).
    - now apply (queryString_mapping l [] w []). }
  rewrite (query_truthy (VRef l) "" b w eq_refl Q). unfold appended, set_url.
  now rewrite append_empty_r.
Qed.

Lemma query_empty_collection_witness :
  query (VRef 0%nat) (fresh_builder "get" "/items" 0) body_world =
  Ok (mkBuilder "get" "/items?" (VRef 0%nat) (VNum 0) (VBool true)) body_world.
Proof.
  apply (query_empty_collection 0%nat (fresh_builder "get" "/items" 0)
           body_world).
  right. reflexivity.
Defined.













(** ** Sharing between the builder, its envelopes and other builders *)

Lemma send_returns wrappedSocket cb b w :
  exists r tr,
    send wrappedSocket cb b w =
      Ok r (mkWorld (w_heap w ++ [envelope_of b]) (w_trace w ++ tr))%list /\
    transport_calls tr =
      [if truthy (_expectResponse b)
       then SockRequest (VRef (length (w_heap w))) (_timeout b)
              (option_map Translating cb)
       else SockSend (VRef (length (w_heap w)))].
Proof.
  unfold send, envelope_of. unfold bind at 1. unfold alloc at 1.
  destruct (truthy (_expectResponse b)); cbn [negb].
  - destruct cb as [f|]; run; eexists _, _; split; reflexivity.
  - run. destruct (sock_send wrappedSocket _ _) as [E|];
      [destruct cb as [f|]|]; run; rewrite <- ?app_assoc;
      eexists _, _; split; reflexivity.
Qed.

Lemma isObject_app (h : heap) v o :
  isObject h v = true -> isObject (h ++ [o]) v = true.
Proof.
  destruct v as [| | | | |l]; try discriminate. simpl.
  destruct (h !! l) as [x|] eqn:E; [|discriminate].
  now rewrite (lookup_app_l_Some _ _ _ _ E).
Qed.

Lemma own_props_app (h : heap) v o :
  isObject h v = true -> own_props (h ++ [o]) v = own_props h v.
Proof.
  destruct v as [| | | | |l]; try discriminate. simpl.
  destruct (h !! l) as [x|] eqn:E; [|discriminate].
  now rewrite (lookup_app_l_Some _ _ _ _ E).
Qed.

(** X16: the envelope holds the builder's body by reference.  When the
    body is a mapping and [body] merges into it after [send] (an argument
    that does not touch the prototype), the envelope that [send] built is
    still there, still points at that mapping, and the mapping now has the
    merged properties: the change is visible through the envelope already
    handed to the transport. *)
Theorem send_then_merge (wrappedSocket : socket) (cb : option user_cb)
    (v : value) (b : builder) (w : world) (lb : loc) (psb : props) :
  _body b = VRef lb -> w_heap w !! lb = Some (OMap psb) ->
  isObject (w_heap w) v = true ->
  changes_prototype (own_props (w_heap w) v) = false ->
  exists r w1 w2,
    send wrappedSocket cb b w = Ok r w1 /\
    body v b w1 = Ok b w2 /\
    w_heap w2 !! length (w_heap w) =
      Some (OMap [("_m", VStr (_method b)); ("_u", VStr (_url b));
                  ("_b", VRef lb)]) /\
    w_heap w2 !! lb = Some (OMap (merged psb (own_props (w_heap w) v))).
Proof.
  intros Hb Hl Ho Hc.
  destruct (send_returns wrappedSocket cb b w) as (r & tr & Hsend & _).
  pose proof (lookup_app_l_Some _ [envelope_of b] _ _ Hl) as Hl1.
  eexists r, _, _. split; [exact Hsend|]. split.
  - apply (body_merge v b (mkWorld _ _) lb psb); cbn [w_heap];
      [now apply isObject_app|assumption|assumption
      |now rewrite own_props_app].
  - cbn [w_heap]. split.
    + rewrite list_lookup_insert_ne.
      * rewrite list_lookup_middle by reflexivity.
        unfold envelope_of. now rewrite Hb.
      * apply lookup_lt_Some in Hl. lia.
    + rewrite own_props_app by assumption.
      now apply lookup_insert_heap with (o := OMap psb).
Qed.

Lemma send_then_merge_witness :
  exists r w1 w2,
    send quiet_socket None (fresh_builder "put" "/items" 1) merge_world =
      Ok r w1 /\
    body (VRef 0%nat) (fresh_builder "put" "/items" 1) w1 =
      Ok (fresh_builder "put" "/items" 1) w2 /\
    w_heap w2 !! 2%nat =
      Some (OMap [("_m", VStr "put"); ("_u", VStr "/items");
                  ("_b", VRef 1%nat)]) /\
    w_heap w2 !! 1%nat = Some (OMap [("b", VNum 2); ("a", VNum 1)]).
Proof.
  apply (send_then_merge quiet_socket None (VRef 0%nat)
           (fresh_builder "put" "/items" 1) merge_world 1%nat
           [("b", VNum 2)]); reflexivity.
Defined.

(** X17: sending a builder twice builds two envelopes, at two fresh
    locations, with the same contents: both carry the one body of the
    builder.  Nothing that was in the heap is changed by either [send]. *)
Theorem send_twice (wrappedSocket : socket) (cb1 cb2 : option user_cb)
    (b : builder) (w : world) :
  exists r w',
    (_ <- send wrappedSocket cb1 b ;; send wrappedSocket cb2 b) w = Ok r w' /\
    w_heap w' = (w_heap w ++ [envelope_of b; envelope_of b])%list.
Proof.
  destruct (send_returns wrappedSocket cb1 b w) as (r1 & tr1 & H1 & _).
  destruct (send_returns wrappedSocket cb2 b
              (mkWorld (w_heap w ++ [envelope_of b]) (w_trace w ++ tr1))%list)
    as (r2 & tr2 & H2 & _).
  eexists r2, _. unfold bind. rewrite H1. split; [exact H2|].
  cbn [w_heap]. now rewrite <- app_assoc.
Qed.

(** X18: every builder gets a body of its own.  Of two builders made one
    after the other, a mapping merged into the body of the first (an
    argument that does not touch the prototype) leaves the body of the
    second empty. *)
Theorem builders_do_not_share (m1 u1 m2 u2 : string) (v : value)
    (w : world) :
  isObject (w_heap w) v = true ->
  changes_prototype (own_props (w_heap w) v) = false ->
  exists l1 l2 w',
    (b1 <- http (VStr m1) (VStr u1) ;;
     b2 <- http (VStr m2) (VStr u2) ;;
     _ <- body v b1 ;;
     ret (b1, b2)) w =
    Ok (fresh_builder m1 u1 l1, fresh_builder m2 u2 l2) w' /\
    l1 <> l2 /\
    w_heap w' !! l1 = Some (OMap (merged [] (own_props (w_heap w) v))) /\
    w_heap w' !! l2 = Some (OMap []).
Proof.
  intros Ho Hc.
  exists (length (w_heap w)), (S (length (w_heap w))).
  set (h2 := ((w_heap w ++ [OMap []]) ++ [OMap []])%list).
  assert (L1 : h2 !! length (w_heap w) = Some (OMap [])).
  { unfold h2. rewrite <- app_assoc. now apply list_lookup_middle. }
  assert (L2 : h2 !! S (length (w_heap w)) = Some (OMap [])).
  { unfold h2. apply list_lookup_middle. rewrite length_app. cbn. lia. }
  assert (O2 : isObject h2 v = true) by now do 2 apply isObject_app.
  assert (P2 : own_props h2 v = own_props (w_heap w) v).
  { unfold h2. rewrite own_props_app by now apply isObject_app.
    now apply own_props_app. }
  assert (C2 : changes_prototype (own_props h2 v) = false)
    by now rewrite P2.
  eexists. split; [|split; [lia|split]].
  - unfold http. cbn [isString negb string_of].
    unfold bind at 1. unfold bind at 1. unfold alloc at 1. unfold ret at 1.
    unfold bind at 1. unfold bind at 1. unfold alloc at 1. unfold ret at 1.
    cbn [w_heap w_trace]. rewrite length_app. cbn [length].
    replace (length (w_heap w) + 1)%nat with (S (length (w_heap w))) by lia.
    unfold bind at 1. fold h2.
    rewrite (body_merge v (mkBuilder m1 u1 (VRef (length (w_heap w)))
                             (VNum 0) (VBool true))
               (mkWorld h2 (w_trace w)) (length (w_heap w)) [] O2 eq_refl L1
               C2).
    reflexivity.
  - cbn [w_heap]. rewrite P2. now apply lookup_insert_heap with (o := OMap []).
  - cbn [w_heap]. rewrite list_lookup_insert_ne by lia. exact L2.
Qed.

Lemma builders_do_not_share_witness :
  exists l1 l2 w',
    (b1 <- http (VStr "get") (VStr "/a") ;;
     b2 <- http (VStr "put") (VStr "/b") ;;
     _ <- body (VRef 0%nat) b1 ;;
     ret (b1, b2)) merge_world =
    Ok (fresh_builder "get" "/a" l1, fresh_builder "put" "/b" l2) w' /\
    l1 <> l2 /\
    w_heap w' !! l1 = Some (OMap [("a", VNum 1)]) /\
    w_heap w' !! l2 = Some (OMap []).
Proof.
  apply (builders_do_not_share "get" "/a" "put" "/b" (VRef 0%nat)
           merge_world); reflexivity.
Defined.

(** X19: [expectResponse] stores whatever it is given, and [send] judges
    it by truthiness only: after [expectResponse(flag)] the one call made
    on the transport is [send] when the flag is falsy ([false], [0], the
    empty string, [null], [undefined]) and [request] when it is truthy (a
    non-empty string such as ["false"] included). *)
Theorem expectResponse_routes (wrappedSocket : socket) (flag : value)
    (cb : option user_cb) (b : builder) (w : world) :
  exists r w',
    (b' <- expectResponse flag b ;; send wrappedSocket cb b') w = Ok r w' /\
    transport_calls (w_trace w') =
      (transport_calls (w_trace w) ++
       [if truthy flag
        then SockRequest (VRef (length (w_heap w))) (_timeout b)
               (option_map Translating cb)
        else SockSend (VRef (length (w_heap w)))])%list.
Proof.
  destruct (send_returns wrappedSocket cb (set_expectResponse flag b) w)
    as (r & tr & H & Htr).
  eexists r, _. split; [exact H|].
  cbn [w_trace]. now rewrite transport_calls_app, Htr.
Qed.

(** ** The verb adapters *)

(** X20: the adapters fix the method and nothing else.  With a string
    route they return a builder with method ["get"] (["put"] for the PUT
    adapter), that route as URL, a fresh empty body, timeout 0 and a
    response expected; with any other route they raise the [TypeError] of
    the URL check, never the one of the method check. *)
Theorem verb_adapters (route : value) (w : world) :
  (isString route = false ->
     get route w = Throw (TypeError "HTTP URL must be a string") w /\
     put route w = Throw (TypeError "HTTP URL must be a string") w) /\
  (forall u, route = VStr u ->
     get route w =
       Ok (mkBuilder "get" u (VRef (length (w_heap w))) (VNum 0) (VBool true))
          (mkWorld (w_heap w ++ [OMap []])%list (w_trace w)) /\
     put route w =
       Ok (mkBuilder "put" u (VRef (length (w_heap w))) (VNum 0) (VBool true))
          (mkWorld (w_heap w ++ [OMap []])%list (w_trace w))).
Proof.
  split.
  - intros H. unfold get, put, sock_http, http. cbn [isString negb].
    now rewrite H.
  - intros u ->. split; reflexivity.
Qed.

Lemma verb_adapters_witness :
  get (VNum 3) empty_world =
    Throw (TypeError "HTTP URL must be a string") empty_world /\
  put (VStr "/items") empty_world =
    Ok (mkBuilder "put" "/items" (VRef 0%nat) (VNum 0) (VBool true))
       (mkWorld [OMap []] []).
Proof.
  split.
  - apply (proj1 (verb_adapters (VNum 3) empty_world)). reflexivity.
  - apply (proj2 (verb_adapters (VStr "/items") empty_world) "/items").
    reflexivity.
Defined.

(** ** Repeating a merge *)

Lemma props_get_merged_again k psb psv :
  List.NoDup (map fst psv) ->
  props_get k (merged (merged psb psv) psv) = props_get k (merged psb psv).
Proof.
  intros Hnd. destruct (props_get k psv) as [x|] eqn:E.
  - destruct (reaches_proto_setter k psb) eqn:R.
    + unfold reaches_proto_setter in R. apply andb_true_iff in R as [Hk Hn].
      apply String.eqb_eq in Hk. subst k.
      destruct (props_get "__proto__" psb) eqn:Hb; [discriminate|].
      rewrite !props_get_merged_proto; auto using props_get_merged_proto.
    + rewrite (props_get_merged_present k x psv psb Hnd E R).
      apply props_get_merged_present; auto.
      unfold reaches_proto_setter.
      rewrite (props_get_merged_present k x psv psb Hnd E R).
      apply andb_false_r.
  - now rewrite (props_get_merged_absent k psv _ E).
Qed.

(** X21: merging the same mapping a second time changes nothing that can
    be read: when the body is a mapping (and is not the argument itself,
    and the argument does not touch the prototype), [body(v)] called twice
    leaves every key of the body with the value it had after the first
    call. *)
Theorem body_merge_idempotent (v : value) (b : builder) (w : world)
    (lb : loc) (psb : props) :
  isObject (w_heap w) v = true -> _body b = VRef lb ->
  w_heap w !! lb = Some (OMap psb) -> v <> VRef lb ->
  List.NoDup (map fst (own_props (w_heap w) v)) ->
  changes_prototype (own_props (w_heap w) v) = false ->
  exists ps1 ps2,
    body v b w =
      Ok b (mkWorld (<[lb := OMap ps1]> (w_heap w)) (w_trace w)) /\
    (b1 <- body v b ;; body v b1) w =
      Ok b (mkWorld (<[lb := OMap ps2]> (w_heap w)) (w_trace w)) /\
    forall k, props_get k ps2 = props_get k ps1.
Proof.
  intros Ho Hb Hl Hne Hnd Hc.
  exists (merged psb (own_props (w_heap w) v)),
         (merged (merged psb (own_props (w_heap w) v))
                 (own_props (w_heap w) v)).
  split; [now apply body_merge|]. split.
  - unfold bind. rewrite (body_merge v b w lb psb Ho Hb Hl Hc).
    rewrite (body_merge v b (mkWorld _ _) lb
               (merged psb (own_props (w_heap w) v))).
    + cbn [w_heap w_trace]. rewrite list_insert_insert_eq.
      now rewrite own_props_insert_other.
    + cbn [w_heap]. now rewrite isObject_insert_other.
    + assumption.
    + cbn [w_heap]. now apply lookup_insert_heap with (o := OMap psb).
    + cbn [w_heap]. now rewrite own_props_insert_other.
  - intros k. now apply props_get_merged_again.
Qed.

Lemma body_merge_idempotent_witness :
  exists ps1 ps2,
    body (VRef 0%nat) (fresh_builder "put" "/items" 1) merge_world =
      Ok (fresh_builder "put" "/items" 1)
         (mkWorld (<[1%nat := OMap ps1]> (w_heap merge_world)) []) /\
    (b1 <- body (VRef 0%nat) (fresh_builder "put" "/items" 1) ;;
     body (VRef 0%nat) b1) merge_world =
      Ok (fresh_builder "put" "/items" 1)
         (mkWorld (<[1%nat := OMap ps2]> (w_heap merge_world)) []) /\
    forall k, props_get k ps2 = props_get k ps1.
Proof.
  apply (body_merge_idempotent (VRef 0%nat) (fresh_builder "put" "/items" 1)
           merge_world 1%nat [("b", VNum 2)]);
    try reflexivity; [discriminate|].
  repeat constructor; simpl; tauto.
Defined.
